(** * The RATP water-fountain dashboard (app.py): preparation, filters, counts

    A shallow embedding of the data logic of [app.py]:
    - [load_and_prepare_data] (fillna, the two derived columns, sort_values),
    - the three interactive filters building [df_filtered],
    - [value_counts] / [sort_index] / [head] as the charts use them,
    - [sort_key], the legend order of [create_map_visualization].

    The DataFrame returned by [pd.read_csv] is a list of rows, one record
    field per column.  pandas and the Python built-ins are modelled by what
    they do on those rows; where pandas leaves an order open (the default
    [kind='quicksort'] of [sort_values]) the model is a relation. *)

From Stdlib Require Import List String Ascii Bool ZArith QArith Lia Arith.
From Stdlib Require Import Permutation Sorted OrderedTypeEx.
Import ListNotations.

Local Open Scope string_scope.
Local Open Scope list_scope.
Local Open Scope Z_scope.

(** ** Python values and exceptions *)

(** A cell of a DataFrame column as [read_csv] leaves it: a missing value
    ([NaN]), an integer (int64 column), a finite float (float64 column) or a
    string (object column). *)
Inductive cell : Type :=
| NaN
| Int (z : Z)
| Flt (q : Q)
| Str (s : string).

Inductive exn : Type :=
| TypeError.

Inductive result (A : Type) : Type :=
| Ok (a : A)
| Raise (e : exn).

Arguments Ok {A} a.
Arguments Raise {A} e.

Definition bind {A B : Type} (m : result A) (k : A -> result B) : result B :=
  match m with
  | Ok a => k a
  | Raise e => Raise e
  end.

Notation "x <- m ;; k" := (bind m (fun x => k))
  (at level 61, m at next level, right associativity).

Fixpoint mapM {A B : Type} (f : A -> result B) (l : list A) : result (list B) :=
  match l with
  | [] => Ok []
  | a :: l' => b <- f a ;; bs <- mapM f l' ;; Ok (b :: bs)
  end.

(** ** Rows *)

(** The thirteen columns named at lines 32-36.  [ligne] holds strings: the
    file has the RER line "A" next to the metro numbers, so the column is of
    object dtype and every line id is a [str]. *)
Record raw_row : Type := mk_raw {
  raw_id_ratp : cell;
  raw_ligne : string;
  raw_station : cell;
  raw_longitude : cell;
  raw_latitude : cell;
  raw_id_idm : cell;
  raw_adresse : cell;
  raw_code_postal : cell;
  raw_commune : cell;
  raw_num_acces : cell;
  raw_nom_acces : cell;
  raw_zone_controlee : cell;
  raw_point_geo : cell
}.

(** A row of the prepared DataFrame: the thirteen columns and the two derived
    ones, [type_ligne] and [region]. *)
Record row : Type := mk_row {
  id_ratp : cell;
  ligne : string;
  station : cell;
  longitude : cell;
  latitude : cell;
  id_idm : cell;
  adresse : cell;
  code_postal : cell;
  commune : cell;
  num_acces : cell;
  nom_acces : cell;
  zone_controlee : cell;
  point_geo : cell;
  type_ligne : string;
  region : string
}.

(** ** load_and_prepare_data *)

(** [Series.fillna(v)]: a missing cell becomes the string [v], any other cell
    is kept. *)
Definition fillna (v : string) (c : cell) : cell :=
  match c with
  | NaN => Str v
  | _ => c
  end.

Definition isin (x : string) (l : list string) : bool :=
  existsb (String.eqb x) l.

(** Line 43: [lambda x: 'RER' if x in ['A','B','C','D','E'] else 'Métro']. *)
Definition type_ligne_of (x : string) : string :=
  if isin x ["A"; "B"; "C"; "D"; "E"] then "RER" else "Métro".

(** [x >= 75000] and [x < 76000] on a cell.  Every comparison with NaN is
    False; comparing a [str] with an [int] raises TypeError. *)
Definition ge_int (x : cell) (n : Z) : result bool :=
  match x with
  | NaN => Ok false
  | Int z => Ok (n <=? z)
  | Flt q => Ok (Qle_bool (inject_Z n) q)
  | Str _ => Raise TypeError
  end.

Definition lt_int (x : cell) (n : Z) : result bool :=
  match x with
  | NaN => Ok false
  | Int z => Ok (z <? n)
  | Flt q => Ok (negb (Qle_bool (inject_Z n) q))
  | Str _ => Raise TypeError
  end.

(** Line 44: [lambda x: 'Paris' if x >= 75000 and x < 76000 else 'Banlieue'];
    [and] evaluates its right operand only when the left one is true. *)
Definition region_of (x : cell) : result string :=
  a <- ge_int x 75000 ;;
  b <- (if a then lt_int x 76000 else Ok false) ;;
  Ok (if b then "Paris" else "Banlieue").

(** Lines 39-44 on one row: the two [fillna], then the two [apply].  The
    column operations are element-wise, and the only one that can raise is the
    [region] lambda. *)
Definition prepare_row (r : raw_row) : result row :=
  let zone := fillna "non renseigné" (raw_zone_controlee r) in
  let nom := fillna "Non spécifié" (raw_nom_acces r) in
  let type := type_ligne_of (raw_ligne r) in
  reg <- region_of (raw_code_postal r) ;;
  Ok (mk_row (raw_id_ratp r) (raw_ligne r) (raw_station r) (raw_longitude r)
             (raw_latitude r) (raw_id_idm r) (raw_adresse r)
             (raw_code_postal r) (raw_commune r) (raw_num_acces r)
             nom zone (raw_point_geo r) type reg).

Definition prepare_rows (df : list raw_row) : result (list row) :=
  mapM prepare_row df.

(** [sort_values] with its default [kind='quicksort'], which pandas documents
    as not stable: the result is some arrangement of the rows in ascending
    order of the key.  [le] is the order of the sort column. *)
Definition sort_values {A : Type} (le : A -> A -> bool) (df out : list A) : Prop :=
  Permutation df out /\ StronglySorted (fun a b => le a b = true) out.

(** Python's [<=] on [str], by code point. *)
Definition ligne_le (a b : row) : bool := String.leb (ligne a) (ligne b).

(** The whole function: [df] is what [read_csv] returned, [out] the returned
    DataFrame or the exception that escaped. *)
Inductive load_and_prepare_data (df : list raw_row) : result (list row) -> Prop :=
| load_ok rows out :
    prepare_rows df = Ok rows ->
    sort_values ligne_le rows out ->
    load_and_prepare_data df (Ok out)
| load_raise e :
    prepare_rows df = Raise e ->
    load_and_prepare_data df (Raise e).

(** ** The interactive filters (lines 227-258) *)

(** What the three widgets return. *)
Record selection : Type := mk_selection {
  selected_lines : list string;
  selected_type : string;
  selected_zone : string
}.

(** [Series == s], element-wise: only a [str] cell can be equal to a [str]. *)
Definition cell_eq_str (c : cell) (s : string) : bool :=
  match c with
  | Str t => String.eqb t s
  | _ => false
  end.

(** Lines 252-258.  Boolean indexing [df[mask]] keeps the rows whose mask is
    True, in the order of [df]. *)
Definition df_filtered (df : list row) (sel : selection) : list row :=
  let d1 := filter (fun r => isin (ligne r) (selected_lines sel)) df in
  let d2 :=
    if negb (String.eqb (selected_type sel) "Tous")
    then filter (fun r => String.eqb (type_ligne r) (selected_type sel)) d1
    else d1 in
  if negb (String.eqb (selected_zone sel) "Toutes")
  then filter (fun r => cell_eq_str (zone_controlee r) (selected_zone sel)) d2
  else d2.

(** A row satisfies every active predicate of the selection. *)
Definition passes (sel : selection) (r : row) : bool :=
  isin (ligne r) (selected_lines sel)
  && (String.eqb (selected_type sel) "Tous"
      || String.eqb (type_ligne r) (selected_type sel))
  && (String.eqb (selected_zone sel) "Toutes"
      || cell_eq_str (zone_controlee r) (selected_zone sel)).

(** ** sorted(..., key=...) *)

(** Python's [sorted] is stable: an element goes after every element already
    placed whose key is not greater than its own. *)
Fixpoint insert_by {A K : Type} (lt : K -> K -> bool) (key : A -> K)
    (x : A) (l : list A) : list A :=
  match l with
  | [] => [x]
  | y :: l' =>
      if lt (key x) (key y) then x :: y :: l' else y :: insert_by lt key x l'
  end.

Definition sorted {A K : Type} (lt : K -> K -> bool) (key : A -> K)
    (l : list A) : list A :=
  fold_left (fun acc x => insert_by lt key x acc) l [].

(** No element has a key below the key of an element before it. *)
Definition ascending {A K : Type} (lt : K -> K -> bool) (key : A -> K)
    (l : list A) : Prop :=
  StronglySorted (fun a b => lt (key b) (key a) = false) l.

(** [Series.unique()]: the distinct values in order of first appearance. *)
Fixpoint unique_acc (seen l : list string) : list string :=
  match l with
  | [] => []
  | x :: l' =>
      if isin x seen then unique_acc seen l' else x :: unique_acc (x :: seen) l'
  end.

Definition unique (l : list string) : list string := unique_acc [] l.

(** Lines 235-236: the options and the default of the line multiselect,
    [sorted(df['ligne'].unique())]. *)
Definition default_lines (df : list row) : list string :=
  sorted String.ltb (fun x => x) (unique (map ligne df)).

(** ** value_counts, sort_index, head *)

Section Counts.
Variable A : Type.
Variable eqb : A -> A -> bool.

(** One more occurrence of [k] in a table kept in first-seen order. *)
Fixpoint bump (k : A) (t : list (A * nat)) : list (A * nat) :=
  match t with
  | [] => [(k, 1%nat)]
  | (k', n) :: t' =>
      if eqb k k' then (k', S n) :: t' else (k', n) :: bump k t'
  end.

(** The counting pass of [value_counts]: each distinct value with its number
    of occurrences. *)
Definition tally (col : list A) : list (A * nat) :=
  fold_left (fun t k => bump k t) col [].

(** Descending order of the counts. *)
Definition count_ge (a b : A * nat) : bool := (snd b <=? snd a)%nat.

(** [Series.value_counts()]: the table sorted by descending count. *)
Definition value_counts (col : list A) (out : list (A * nat)) : Prop :=
  sort_values count_ge (tally col) out.

(** [Series.head(n)]. *)
Definition head (n : nat) (s : list (A * nat)) : list (A * nat) := firstn n s.

Definition total (s : list (A * nat)) : nat := list_sum (map snd s).
End Counts.

Arguments bump {A} eqb k t.
Arguments tally {A} eqb col.
Arguments count_ge {A} a b.
Arguments value_counts {A} eqb col out.
Arguments head {A} n s.
Arguments total {A} s.

Definition index_le (a b : string * nat) : bool := String.leb (fst a) (fst b).

(** Line 53: [df['ligne'].value_counts().sort_index()]. *)
Definition line_counts (df : list row) (out : list (string * nat)) : Prop :=
  exists vc, value_counts String.eqb (map ligne df) vc /\ sort_values index_le vc out.

(** Line 320: [df['ligne'].value_counts().head(10)], for any length [n]. *)
Definition top_lines (n : nat) (df : list row) (out : list (string * nat)) : Prop :=
  exists vc, value_counts String.eqb (map ligne df) vc /\ out = head n vc.

Definition cell_eqb (a b : cell) : bool :=
  match a, b with
  | Int x, Int y => x =? y
  | Flt x, Flt y => Qeq_bool x y
  | Int x, Flt y => Qeq_bool (inject_Z x) y
  | Flt x, Int y => Qeq_bool x (inject_Z y)
  | Str x, Str y => String.eqb x y
  | _, _ => false
  end.

Definition notna (c : cell) : bool :=
  match c with
  | NaN => false
  | _ => true
  end.

(** Line 150: [df['zone_controlee'].value_counts()]; missing values are left
    out ([dropna=True]). *)
Definition zone_counts (df : list row) (out : list (cell * nat)) : Prop :=
  value_counts cell_eqb (filter notna (map zone_controlee df)) out.

(** Lines 166 and 303: the counts of the two derived columns. *)
Definition type_counts (df : list row) (out : list (string * nat)) : Prop :=
  value_counts String.eqb (map type_ligne df) out.

Definition region_counts (df : list row) (out : list (string * nat)) : Prop :=
  value_counts String.eqb (map region df) out.

(** ** sort_key (lines 101-108) *)

(** The ASCII digits '0'..'9'. *)
Definition is_digit (c : ascii) : bool :=
  ((48 <=? nat_of_ascii c) && (nat_of_ascii c <=? 57))%nat.

Fixpoint all_digits (s : string) : bool :=
  match s with
  | EmptyString => true
  | String c s' => is_digit c && all_digits s'
  end.

Fixpoint ascii_only (s : string) : bool :=
  match s with
  | EmptyString => true
  | String c s' => (nat_of_ascii c <? 128)%nat && ascii_only s'
  end.

(** [str.isdigit].  On ASCII text it asks for at least one character, all in
    '0'..'9'.  With a character outside ASCII the answer is a matter of the
    Unicode tables (the Arabic-Indic digits and the superscript two are
    digits for it), which are not modelled: [None]. *)
Definition isdigit (s : string) : option bool :=
  if ascii_only s
  then Some (match s with
             | EmptyString => false
             | _ => all_digits s
             end)
  else None.

Definition digit_value (c : ascii) : Z := Z.of_nat (nat_of_ascii c) - 48.

Fixpoint int_acc (acc : Z) (s : string) : Z :=
  match s with
  | EmptyString => acc
  | String c s' => int_acc (10 * acc + digit_value c) s'
  end.

(** [int(s)] in base ten, on a string of ASCII digits. *)
Definition int (s : string) : Z := int_acc 0 s.

(** [s[:-3]]: all but the last three characters, empty when there are fewer. *)
Definition drop_last3 (s : string) : string :=
  substring 0 (String.length s - 3) s.

Definition endswith (s suffix : string) : bool :=
  (String.length suffix <=? String.length s)%nat
  && String.eqb (substring (String.length s - String.length suffix)
                           (String.length suffix) s) suffix.

(** What a call comes to: a value, the OverflowError of [int + 0.5], or an
    input that the model does not cover. *)
Inductive outcome (A : Type) : Type :=
| Returns (a : A)
| OverflowError
| OutOfModel.

Arguments Returns {A} a.
Arguments OverflowError {A}.
Arguments OutOfModel {A}.

(** [float(n)] for an integer [n >= 0]: the nearest double, halfway cases to
    the even mantissa of 53 bits; [None] when it is beyond the doubles and
    Python raises OverflowError. *)
Definition to_double (n : Z) : option Z :=
  let e := Z.log2 n + 1 - 53 in
  if e <=? 0 then Some n
  else
    let q := n / 2 ^ e in
    let r := n mod 2 ^ e in
    let half := 2 ^ (e - 1) in
    let q' := if (half <? r) || ((r =? half) && Z.odd q) then q + 1 else q in
    let m := q' * 2 ^ e in
    if 2 ^ 1024 <=? m then None else Some m.

(** [n + 0.5] for an integer [n >= 0]: [n] becomes a double, then the sum is
    rounded to a double.  Below 2^52 the sum is exact; from 2^52 to 2^53 it
    falls halfway between two integers and goes to the even one; from 2^53
    on the half is lost. *)
Definition add_half (n : Z) : option Q :=
  match to_double n with
  | None => None
  | Some m =>
      Some (if m <? 2 ^ 52 then (inject_Z m + (1 # 2))%Q
            else if m <? 2 ^ 53 then inject_Z (if Z.even m then m else m + 1)
            else inject_Z m)
  end.

(** The tuples [sort_key] returns: [(0, number)] or [(1, str)].  The number is
    an [int] or a double, held as the rational it is. *)
Inductive key : Type :=
| KNum (q : Q)
| KStr (s : string).

(** The longest string of digits that [int] converts in every version of
    Python; from Python 3.11 on a longer one raises ValueError. *)
Definition int_max_str_digits : nat := 4300.

(** Lines 101-108.  [str(ligne)] is [ligne] itself, the column holding
    strings.  A line id with a character outside ASCII, or with more digits
    than [int_max_str_digits], is outside the model. *)
Definition sort_key (ligne : string) : outcome key :=
  match isdigit ligne with
  | None => OutOfModel
  | Some true =>
      if (String.length ligne <=? int_max_str_digits)%nat
      then Returns (KNum (inject_Z (int ligne)))
      else OutOfModel
  | Some false =>
      match isdigit (drop_last3 ligne) with
      | None => OutOfModel
      | Some d =>
          if d && endswith ligne "bis"
          then
            if (String.length (drop_last3 ligne) <=? int_max_str_digits)%nat
            then match add_half (int (drop_last3 ligne)) with
                 | Some q => Returns (KNum q)
                 | None => OverflowError
                 end
            else OutOfModel
          else Returns (KStr ligne)
      end
  end.

(** [<] on those tuples: the first components decide unless they are equal;
    an [int] and a double are compared by value. *)
Definition key_lt (a b : key) : bool :=
  match a, b with
  | KNum x, KNum y => negb (Qle_bool y x)
  | KNum _, KStr _ => true
  | KStr _, KNum _ => false
  | KStr s, KStr t => String.ltb s t
  end.

(** [sorted] calls the key function on every element, in order, before it
    compares anything. *)
Fixpoint decorate (lines : list string) : outcome (list (string * key)) :=
  match lines with
  | [] => Returns []
  | l :: ls =>
      match sort_key l with
      | Returns k =>
          match decorate ls with
          | Returns d => Returns ((l, k) :: d)
          | OverflowError => OverflowError
          | OutOfModel => OutOfModel
          end
      | OverflowError => OverflowError
      | OutOfModel => OutOfModel
      end
  end.

(** Line 123: [sorted(lines, key=sort_key)]. *)
Definition sorted_lines (lines : list string) : outcome (list string) :=
  match decorate lines with
  | Returns d => Returns (map fst (sorted key_lt snd d))
  | OverflowError => OverflowError
  | OutOfModel => OutOfModel
  end.

(** *** Line ids, in the words of the specification *)

(** The ten decimal digits with their values. *)
Definition decimal_digits : list (ascii * Z) :=
  [ ("0"%char, 0); ("1"%char, 1); ("2"%char, 2); ("3"%char, 3); ("4"%char, 4);
    ("5"%char, 5); ("6"%char, 6); ("7"%char, 7); ("8"%char, 8); ("9"%char, 9) ].

(** [numeral s n]: the string [s] is the integer [n] written in decimal
    digits, each digit weighing ten times the one to its right. *)
Inductive numeral : string -> Z -> Prop :=
| numeral_digit c d :
    In (c, d) decimal_digits -> numeral (String c EmptyString) d
| numeral_more c d s n :
    In (c, d) decimal_digits -> numeral s n ->
    numeral (String c s) (d * 10 ^ Z.of_nat (String.length s) + n).

(** A purely numeric line id, or one followed by "bis". *)
Definition numeric_id (s : string) : Prop :=
  exists d n, numeral d n /\ (s = d \/ s = (d ++ "bis")%string).

(** Every character is an ASCII character. *)
Definition ascii_text (s : string) : Prop :=
  Forall (fun c => (nat_of_ascii c < 128)%nat) (list_ascii_of_string s).

(** ** Subsequences *)

Inductive subseq {A : Type} : list A -> list A -> Prop :=
| subseq_nil : subseq [] []
| subseq_skip x l1 l2 : subseq l1 l2 -> subseq l1 (x :: l2)
| subseq_take x l1 l2 : subseq l1 l2 -> subseq (x :: l1) (x :: l2).

(** A stable sort: one of the arrangements [sort_values] may return. *)
Definition stable_sort {A : Type} (le : A -> A -> bool) (l : list A) : list A :=
  sorted (fun a b => negb (le b a)) (fun x => x) l.

(** The sum of the counts that a table holds for the value [k]. *)
Definition entry_sum (k : string) (t : list (string * nat)) : nat :=
  total (filter (fun p => String.eqb k (fst p)) t).




(** ** A file whose line ids are all numbers *)

(** The type [read_csv] gives the [ligne] column: text ([object]) as soon as
    one line id is not a number, 64-bit integers when every line id is one. *)
Inductive ligne_dtype : Type :=
| object
| int64.



(** [<=] on the [ligne] column, by type: code points for text, values for
    integers. *)
Definition ligne_le_as (dt : ligne_dtype) (a b : row) : bool :=
  match dt with
  | object => String.leb (ligne a) (ligne b)
  | int64 => int (ligne a) <=? int (ligne b)
  end.

(** [load_and_prepare_data] on a frame whose [ligne] column has type [dt];
    at [object] it is [load_and_prepare_data] itself. *)
Inductive load_and_prepare_data_as (dt : ligne_dtype) (df : list raw_row)
  : result (list row) -> Prop :=
| load_as_ok rows out :
    prepare_rows df = Ok rows ->
    sort_values (ligne_le_as dt) rows out ->
    load_and_prepare_data_as dt df (Ok out)
| load_as_raise e :
    prepare_rows df = Raise e ->
    load_and_prepare_data_as dt df (Raise e).

(** The number of rows of line [k]. *)
Definition rows_of_line (k : string) (df : list row) : nat :=
  List.length (filter (fun r => String.eqb (ligne r) k) df).

(** ** The KPIs and the other chart inputs *)

(** [Series.nunique()] on a column without missing values (lines 216, 352). *)
Definition nunique (col : list string) : nat := List.length (unique col).

(** [len(df[df['zone_controlee'] == s])]; line 222 takes it at
    'en zone contrôlée'. *)
Definition rows_of_zone (s : string) (df : list row) : nat :=
  List.length (filter (fun r => cell_eq_str (zone_controlee r) s) df).

Definition zone_ctrl (df : list row) : nat :=
  rows_of_zone "en zone contrôlée" df.

(** Line 360: [len(df[df['region'] == v])]. *)
Definition len_region (v : string) (df : list row) : nat :=
  List.length (filter (fun r => String.eqb (region r) v) df).

(** [len(df[df['type_ligne'] == v])]. *)
Definition len_type (v : string) (df : list row) : nat :=
  List.length (filter (fun r => String.eqb (type_ligne r) v) df).

(** What the widgets return before any interaction: the multiselect its
    [default] (line 236), each selectbox its first option (lines 242, 248). *)
Definition default_selection (df : list row) : selection :=
  mk_selection (default_lines df) "Tous" "Toutes".

(** Line 123: [sorted(df_sorted['ligne'].unique(), key=sort_key)], the order
    of the legend. *)
Definition category_orders (df_sorted : list row) : outcome (list string) :=
  sorted_lines (unique (map ligne df_sorted)).

(** [Series.values.max()] (line 338); on an empty array numpy raises
    ValueError, which is [None] here. *)
Definition values_max {A : Type} (s : list (A * nat)) : option nat :=
  match map snd s with
  | [] => None
  | n :: ns => Some (fold_left Nat.max ns n)
  end.

(** The sum of the counts that a table of cells holds for the string [s]. *)
Definition cell_entry_sum (s : string) (t : list (cell * nat)) : nat :=
  total (filter (fun p => cell_eq_str (fst p) s) t).

(** The raw zone statuses that the zone filter 'non renseigné' selects once
    prepared: the missing ones and the ones spelled that way in the file. *)
Definition raw_unspecified (r0 : raw_row) : bool :=
  match raw_zone_controlee r0 with
  | NaN => true
  | Str s => String.eqb s "non renseigné"
  | _ => false
  end.

(** ** Fixtures *)

Definition raw_fixture (l : string) (st : string) (cp zone : cell) : raw_row :=
  mk_raw (Int 1) l (Str st) (Flt (47 # 20)) (Flt (977 # 20)) (Str "x")
         (Str "1 rue") cp (Str "Paris") (Int 1) NaN zone (Str "48.85, 2.35").

Definition fixture (l : string) (st : string) (cp : cell) (zone : string)
    (type reg : string) : row :=
  mk_row (Int 1) l (Str st) (Flt (47 # 20)) (Flt (977 # 20)) (Str "x")
         (Str "1 rue") cp (Str "Paris") (Int 1) (Str "Non spécifié")
         (Str zone) (Str "48.85, 2.35") type reg.

(** The three raw rows of the end-to-end scenario. *)
Definition raw3 : list raw_row :=
  [ raw_fixture "1" "Bastille" (Int 75010) (Str "en zone contrôlée");
    raw_fixture "A" "Vincennes" (Int 93100) NaN;
    raw_fixture "14" "Bercy" (Int 75015) (Str "en zone contrôlée") ].

Definition prepared3 : list row :=
  [ fixture "1" "Bastille" (Int 75010) "en zone contrôlée" "Métro" "Paris";
    fixture "14" "Bercy" (Int 75015) "en zone contrôlée" "Métro" "Paris";
    fixture "A" "Vincennes" (Int 93100) "non renseigné" "RER" "Banlieue" ].


(** A postal code that [read_csv] cannot read as a number leaves the whole
    column as text. *)
Definition raw_bad : list raw_row :=
  [ raw_fixture "1" "Bastille" (Str "75004") NaN;
    raw_fixture "2" "Ajaccio" (Str "2A004") NaN ].

(** A row whose postal code is missing. *)
Definition raw_missing : list raw_row :=
  [ raw_fixture "1" "Bastille" NaN NaN ].


Example type_ligne_of_A : type_ligne_of "A" = "RER".
Proof. reflexivity. Qed.

Example type_ligne_of_14 : type_ligne_of "14" = "Métro".
Proof. reflexivity. Qed.

Example region_of_75010 : region_of (Int 75010) = Ok "Paris".
Proof. reflexivity. Qed.

Example region_of_text : region_of (Str "2A004") = Raise TypeError.
Proof. reflexivity. Qed.

Example sorted_lines_example :
  sorted_lines ["2"; "1"; "1bis"; "A"; "10"]
  = Returns ["1"; "1bis"; "2"; "10"; "A"].
Proof. vm_compute. reflexivity. Qed.

Example sort_key_1bis : sort_key "1bis" = Returns (KNum (inject_Z 1 + (1 # 2))).
Proof. vm_compute. reflexivity. Qed.

Example sort_key_bare_bis : sort_key "bis" = Returns (KStr "bis").
Proof. vm_compute. reflexivity. Qed.

Example sort_key_upper_bis : sort_key "1BIS" = Returns (KStr "1BIS").
Proof. vm_compute. reflexivity. Qed.

Example add_half_exact :
  add_half (2 ^ 52 - 1) = Some (inject_Z (2 ^ 52 - 1) + (1 # 2))%Q.
Proof. vm_compute. reflexivity. Qed.

Example add_half_tie_up : add_half (2 ^ 52 + 1) = Some (inject_Z (2 ^ 52 + 2)).
Proof. vm_compute. reflexivity. Qed.

Example add_half_lost : add_half (2 ^ 53 + 1) = Some (inject_Z (2 ^ 53)).
Proof. vm_compute. reflexivity. Qed.

Example add_half_last :
  add_half (2 ^ 1024 - 2 ^ 970 - 1) = Some (inject_Z (2 ^ 1024 - 2 ^ 971)).
Proof. vm_compute. reflexivity. Qed.

Example add_half_overflow : add_half (2 ^ 1024 - 2 ^ 970) = None.
Proof. vm_compute. reflexivity. Qed.

Example prepare_rows_raw3 :
  exists rows, prepare_rows raw3 = Ok rows /\ Permutation rows prepared3.
Proof.
  eexists; split; [reflexivity|].
  apply perm_skip. apply perm_swap.
Qed.

Example tally_example :
  tally String.eqb ["10"; "2"; "10"] = [("10", 2%nat); ("2", 1%nat)].
Proof. reflexivity. Qed.

(** * Properties *)

(** ** Lists, membership, subsequences *)

Lemma isin_In (x : string) (l : list string) : isin x l = true <-> In x l.
Proof.
  unfold isin. rewrite existsb_exists. split.
  - intros [y [Hy E]]. apply String.eqb_eq in E. now subst.
  - intros H. exists x. split; [assumption | apply String.eqb_refl].
Qed.

Lemma cell_eq_str_eq (c : cell) (s : string) :
  cell_eq_str c s = true <-> c = Str s.
Proof.
  destruct c; simpl; try (split; discriminate).
  rewrite String.eqb_eq. split; congruence.
Qed.

Lemma filter_filter {A : Type} (f g : A -> bool) (l : list A) :
  filter g (filter f l) = filter (fun x => f x && g x) l.
Proof.
  induction l as [|a l IH]; simpl; [reflexivity|].
  destruct (f a); simpl; [destruct (g a)|]; now rewrite IH.
Qed.

Lemma filter_true {A : Type} (f : A -> bool) (l : list A) :
  (forall x, In x l -> f x = true) -> filter f l = l.
Proof.
  induction l as [|a l IH]; simpl; intros H; [reflexivity|].
  rewrite (H a (or_introl eq_refl)). f_equal. apply IH. auto.
Qed.

Lemma filter_none {A : Type} (f : A -> bool) (l : list A) :
  (forall x, In x l -> f x = false) -> filter f l = [].
Proof.
  induction l as [|a l IH]; simpl; intros H; [reflexivity|].
  rewrite (H a (or_introl eq_refl)). apply IH. auto.
Qed.

Lemma filter_subseq {A : Type} (f : A -> bool) (l : list A) :
  subseq (filter f l) l.
Proof.
  induction l as [|a l IH]; simpl.
  - constructor.
  - destruct (f a); now constructor.
Qed.

Lemma subseq_incl {A : Type} (l1 l2 : list A) : subseq l1 l2 -> incl l1 l2.
Proof.
  induction 1 as [|x l1 l2 _ IH|x l1 l2 _ IH]; intros y Hy.
  - assumption.
  - right. now apply IH.
  - destruct Hy as [->|Hy]; [now left | right; now apply IH].
Qed.

Lemma subseq_Forall {A : Type} (P : A -> Prop) (l1 l2 : list A) :
  subseq l1 l2 -> Forall P l2 -> Forall P l1.
Proof.
  induction 1 as [|x l1 l2 _ IH|x l1 l2 _ IH]; intros H.
  - assumption.
  - inversion H; subst. auto.
  - inversion H; subst. constructor; auto.
Qed.

Lemma subseq_StronglySorted {A : Type} (R : A -> A -> Prop) (l1 l2 : list A) :
  subseq l1 l2 -> StronglySorted R l2 -> StronglySorted R l1.
Proof.
  induction 1 as [|x l1 l2 Hs IH|x l1 l2 Hs IH]; intros H.
  - assumption.
  - inversion H; subst. auto.
  - inversion H; subst. constructor; [auto|].
    eapply subseq_Forall; eassumption.
Qed.

(** The three successive selections are one selection by the conjunction. *)
Lemma df_filtered_passes (df : list row) (sel : selection) :
  df_filtered df sel = filter (passes sel) df.
Proof.
  unfold df_filtered, passes.
  destruct (String.eqb (selected_type sel) "Tous");
    destruct (String.eqb (selected_zone sel) "Toutes"); simpl;
    rewrite ?filter_filter; apply filter_ext; intros r;
    rewrite ?andb_true_r, ?andb_assoc; reflexivity.
Qed.

Lemma passes_spec (sel : selection) (r : row) :
  passes sel r = true <->
  In (ligne r) (selected_lines sel)
  /\ (selected_type sel = "Tous" \/ type_ligne r = selected_type sel)
  /\ (selected_zone sel = "Toutes" \/ zone_controlee r = Str (selected_zone sel)).
Proof.
  unfold passes.
  rewrite !andb_true_iff, !orb_true_iff, isin_In, !String.eqb_eq, cell_eq_str_eq.
  tauto.
Qed.

Lemma In_df_filtered (df : list row) (sel : selection) (r : row) :
  In r (df_filtered df sel) <->
  In r df
  /\ In (ligne r) (selected_lines sel)
  /\ (selected_type sel = "Tous" \/ type_ligne r = selected_type sel)
  /\ (selected_zone sel = "Toutes" \/ zone_controlee r = Str (selected_zone sel)).
Proof.
  rewrite df_filtered_passes, filter_In, passes_spec. tauto.
Qed.

Lemma In_insert_by {A K : Type} (lt : K -> K -> bool) (key : A -> K)
    (x y : A) (l : list A) :
  In y (insert_by lt key x l) <-> y = x \/ In y l.
Proof.
  induction l as [|a l IH]; simpl.
  - intuition.
  - destruct (lt (key x) (key a)); simpl; [intuition|].
    rewrite IH. intuition.
Qed.

Lemma insert_by_perm {A K : Type} (lt : K -> K -> bool) (key : A -> K)
    (x : A) (l : list A) :
  Permutation (x :: l) (insert_by lt key x l).
Proof.
  induction l as [|a l IH]; simpl.
  - apply Permutation_refl.
  - destruct (lt (key x) (key a)).
    + apply Permutation_refl.
    + eapply perm_trans; [apply perm_swap|]. now apply perm_skip.
Qed.

Lemma fold_insert_perm {A K : Type} (lt : K -> K -> bool) (key : A -> K)
    (l acc : list A) :
  Permutation (acc ++ l) (fold_left (fun acc x => insert_by lt key x acc) l acc).
Proof.
  revert acc. induction l as [|a l IH]; intros acc; simpl.
  - rewrite app_nil_r. apply Permutation_refl.
  - eapply perm_trans; [|apply IH].
    eapply perm_trans; [apply Permutation_sym, Permutation_middle|].
    change (a :: acc ++ l) with ((a :: acc) ++ l).
    apply Permutation_app_tail, insert_by_perm.
Qed.

Lemma sorted_perm {A K : Type} (lt : K -> K -> bool) (key : A -> K) (l : list A) :
  Permutation l (sorted lt key l).
Proof. apply (fold_insert_perm lt key l []). Qed.

Lemma In_unique_acc (seen l : list string) (x : string) :
  In x (unique_acc seen l) <-> In x l /\ ~ In x seen.
Proof.
  revert seen. induction l as [|a l IH]; intros seen; simpl.
  - tauto.
  - destruct (isin a seen) eqn:E.
    + apply isin_In in E. rewrite IH. split.
      * tauto.
      * intros [[->|H] Hn]; [contradiction | tauto].
    + assert (Ha : ~ In a seen).
      { intros H. apply isin_In in H. congruence. }
      simpl. rewrite IH. simpl. split.
      * intros [->|[H Hn]]; [tauto|]. tauto.
      * intros [[->|H] Hn]; [tauto|].
        destruct (string_dec a x) as [->|Hd]; [tauto|]. right. tauto.
Qed.

Lemma In_default_lines (df : list row) (x : string) :
  In x (default_lines df) <-> In x (map ligne df).
Proof.
  unfold default_lines, unique. split.
  - intros H. eapply Permutation_in in H; [|apply Permutation_sym, sorted_perm].
    apply In_unique_acc in H. tauto.
  - intros H. eapply Permutation_in; [apply sorted_perm|].
    apply In_unique_acc. simpl. tauto.
Qed.

Lemma sort_values_nil {A : Type} (le : A -> A -> bool) (out : list A) :
  sort_values le [] out <-> out = [].
Proof.
  unfold sort_values. split.
  - intros [H _]. now apply Permutation_nil.
  - intros ->. split; constructor.
Qed.

Lemma value_counts_nil {A : Type} (eqb : A -> A -> bool) (out : list (A * nat)) :
  value_counts eqb [] out <-> out = [].
Proof. apply sort_values_nil. Qed.

(** ** The filters *)

(** C1. The three filters act as one conjunction: a row is in [df_filtered]
    iff it is in the data, its line is selected, its type is the selected one
    unless the type selection is the catch-all ('Tous', the spec's "All"), and
    its zone status is the selected one unless that selection is the catch-all
    ('Toutes').  Relaxing the type or the zone to the catch-all, or the lines
    to the multiselect's default (every line of the data) or to any larger
    list, gives a superset of the filtered rows. *)
Theorem filter_conjunction (df : list row) (sel : selection) :
  df_filtered df sel = filter (passes sel) df
  /\ (forall r,
        In r (df_filtered df sel) <->
        In r df
        /\ In (ligne r) (selected_lines sel)
        /\ (selected_type sel = "Tous" \/ type_ligne r = selected_type sel)
        /\ (selected_zone sel = "Toutes"
            \/ zone_controlee r = Str (selected_zone sel)))
  /\ incl (df_filtered df sel)
          (df_filtered df (mk_selection (default_lines df) (selected_type sel)
                                        (selected_zone sel)))
  /\ (forall lines,
        incl (selected_lines sel) lines ->
        incl (df_filtered df sel)
             (df_filtered df (mk_selection lines (selected_type sel)
                                           (selected_zone sel))))
  /\ incl (df_filtered df sel)
          (df_filtered df (mk_selection (selected_lines sel) "Tous"
                                        (selected_zone sel)))
  /\ incl (df_filtered df sel)
          (df_filtered df (mk_selection (selected_lines sel) (selected_type sel)
                                        "Toutes")).
Proof.
  split; [apply df_filtered_passes|].
  split; [intros r; apply In_df_filtered|].
  assert (Hweak : forall sel',
            (forall r, In r df -> In (ligne r) (selected_lines sel) ->
                       In (ligne r) (selected_lines sel')) ->
            (selected_type sel' = "Tous" \/ selected_type sel' = selected_type sel) ->
            (selected_zone sel' = "Toutes" \/ selected_zone sel' = selected_zone sel) ->
            incl (df_filtered df sel) (df_filtered df sel')).
  { intros sel' Hl Ht Hz r Hr.
    apply In_df_filtered in Hr. apply In_df_filtered.
    destruct Hr as (Hd & Hli & Ht' & Hz'). split; [assumption|].
    split; [now apply Hl|]. split.
    - destruct Ht as [Ht|Ht]; [now left|]. rewrite Ht. exact Ht'.
    - destruct Hz as [Hz|Hz]; [now left|]. rewrite Hz. exact Hz'. }
  split; [|split; [|split]].
  - apply Hweak; simpl; auto.
    intros r Hd _. apply In_default_lines. now apply in_map.
  - intros lines Hl. apply Hweak; simpl; auto.
  - apply Hweak; simpl; auto.
  - apply Hweak; simpl; auto.
Qed.

(** On the three-row scenario, selecting line A alone gives no more rows than
    selecting lines A and 1. *)
Lemma filter_conjunction_witness :
  incl ["A"] ["A"; "1"]
  /\ incl (df_filtered prepared3 (mk_selection ["A"] "RER" "Toutes"))
          (df_filtered prepared3 (mk_selection ["A"; "1"] "RER" "Toutes")).
Proof.
  assert (H : incl ["A"] ["A"; "1"]).
  { intros x [<-|[]]. left. reflexivity. }
  split; [exact H|].
  destruct (filter_conjunction prepared3 (mk_selection ["A"] "RER" "Toutes"))
    as (_ & _ & _ & Hlines & _).
  exact (Hlines ["A"; "1"] H).
Defined.

(** C10. Filtering only removes rows: [df_filtered] is a subsequence of the
    data it is applied to, so the surviving rows keep their relative order,
    and data sorted by line (as the prepared DataFrame is) stays sorted. *)
Theorem filter_subsequence (df : list row) (sel : selection) :
  subseq (df_filtered df sel) df
  /\ (StronglySorted (fun a b => ligne_le a b = true) df ->
      StronglySorted (fun a b => ligne_le a b = true) (df_filtered df sel)).
Proof.
  rewrite df_filtered_passes. split.
  - apply filter_subseq.
  - apply subseq_StronglySorted, filter_subseq.
Qed.

(** The three-row scenario is sorted by line, and so is its filtered view. *)
Lemma filter_subsequence_witness :
  StronglySorted (fun a b => ligne_le a b = true) prepared3
  /\ StronglySorted (fun a b => ligne_le a b = true)
       (df_filtered prepared3 (mk_selection ["A"; "1"] "Tous" "Toutes")).
Proof.
  assert (H : StronglySorted (fun a b => ligne_le a b = true) prepared3).
  { repeat constructor. }
  split; [exact H|].
  exact (proj2 (filter_subsequence prepared3
                  (mk_selection ["A"; "1"] "Tous" "Toutes")) H).
Defined.

(** C7. The filters have no failing case.  An empty line selection, a
    selection of lines none of which occurs in the data, a type or a zone
    status that no row has: each gives the empty result; a selected line that
    does not occur changes nothing.  On an empty result the counts behind the
    charts are empty. *)
Theorem filter_never_fails (df : list row) (sel : selection) :
  (selected_lines sel = [] -> df_filtered df sel = [])
  /\ ((forall l, In l (selected_lines sel) -> ~ In l (map ligne df)) ->
      df_filtered df sel = [])
  /\ (selected_type sel <> "Tous" ->
      ~ In (selected_type sel) (map type_ligne df) ->
      df_filtered df sel = [])
  /\ (selected_zone sel <> "Toutes" ->
      ~ In (Str (selected_zone sel)) (map zone_controlee df) ->
      df_filtered df sel = [])
  /\ df_filtered df sel =
     df_filtered df
       (mk_selection (filter (fun l => isin l (map ligne df)) (selected_lines sel))
                     (selected_type sel) (selected_zone sel))
  /\ (df_filtered df sel = [] ->
      (forall out, line_counts (df_filtered df sel) out <-> out = [])
      /\ (forall out, zone_counts (df_filtered df sel) out <-> out = [])
      /\ (forall out, type_counts (df_filtered df sel) out <-> out = [])
      /\ (forall out, region_counts (df_filtered df sel) out <-> out = [])
      /\ (forall n out, top_lines n (df_filtered df sel) out <-> out = [])).
Proof.
  rewrite !df_filtered_passes.
  assert (Hnone : (forall r, In r df -> passes sel r = true -> False) ->
                  filter (passes sel) df = []).
  { intros H. apply filter_none. intros r Hr.
    destruct (passes sel r) eqn:E; [exfalso; eauto | reflexivity]. }
  split; [|split; [|split; [|split; [|split]]]].
  - intros Hl. apply Hnone. intros r _ Hp. apply passes_spec in Hp.
    rewrite Hl in Hp. destruct Hp as [[] _].
  - intros Hl. apply Hnone. intros r Hr Hp. apply passes_spec in Hp.
    destruct Hp as [Hi _]. apply (Hl _ Hi). now apply in_map.
  - intros Hn Ht. apply Hnone. intros r Hr Hp. apply passes_spec in Hp.
    destruct Hp as (_ & [E|E] & _); [contradiction|].
    apply Ht. rewrite <- E. now apply in_map.
  - intros Hn Hz. apply Hnone. intros r Hr Hp. apply passes_spec in Hp.
    destruct Hp as (_ & _ & [E|E]); [contradiction|].
    apply Hz. rewrite <- E. now apply in_map.
  - apply filter_ext_in. intros r Hr. unfold passes; simpl. f_equal. f_equal.
    apply eq_true_iff_eq. rewrite !isin_In, filter_In, isin_In.
    pose proof (in_map ligne _ _ Hr). tauto.
  - intros ->. split; [|split; [|split; [|split]]]; intros.
    + unfold line_counts. split.
      * intros [vc [Hv Hs]]. apply value_counts_nil in Hv. subst vc.
        now apply sort_values_nil in Hs.
      * intros ->. exists []. split; [now apply value_counts_nil|].
        now apply sort_values_nil.
    + apply value_counts_nil.
    + apply value_counts_nil.
    + apply value_counts_nil.
    + unfold top_lines, head. split.
      * intros [vc [Hv ->]]. apply value_counts_nil in Hv. subst vc.
        apply firstn_nil.
      * intros ->. exists []. split; [now apply value_counts_nil|].
        now rewrite firstn_nil.
Qed.

(** On the three-row scenario, the unknown line 99 and the empty selection
    both give the empty result. *)
Lemma filter_never_fails_witness :
  (forall l, In l ["99"] -> ~ In l (map ligne prepared3))
  /\ df_filtered prepared3 (mk_selection ["99"] "Tous" "Toutes") = []
  /\ df_filtered prepared3 (mk_selection [] "Tous" "Toutes") = [].
Proof.
  assert (H : forall l, In l ["99"] -> ~ In l (map ligne prepared3)).
  { intros l [<-|[]] [E|[E|[E|[]]]]; discriminate E. }
  destruct (filter_never_fails prepared3 (mk_selection ["99"] "Tous" "Toutes"))
    as (_ & Hunknown & _).
  destruct (filter_never_fails prepared3 (mk_selection [] "Tous" "Toutes"))
    as (Hempty & _).
  split; [exact H|]. split; [exact (Hunknown H) | exact (Hempty eq_refl)].
Defined.

(** ** Sorting *)

Lemma string_leb_trans (a b c : string) :
  String.leb a b = true -> String.leb b c = true -> String.leb a c = true.
Proof.
  unfold String.leb. intros Hab Hbc.
  destruct (String.compare a b) eqn:Eab; try discriminate.
  - apply String.compare_eq_iff in Eab. now subst.
  - destruct (String.compare b c) eqn:Ebc; try discriminate.
    + apply String.compare_eq_iff in Ebc. subst. now rewrite Eab.
    + apply String_as_OT.cmp_lt in Eab, Ebc.
      pose proof (String_as_OT.lt_trans _ _ _ Eab Ebc) as H.
      apply String_as_OT.cmp_lt in H. unfold String_as_OT.cmp in H.
      now rewrite H.
Qed.

Lemma StronglySorted_impl {A : Type} (R R' : A -> A -> Prop) (l : list A) :
  (forall a b, R a b -> R' a b) -> StronglySorted R l -> StronglySorted R' l.
Proof.
  intros HR. induction 1 as [|x l Hs IH Hx]; constructor; [assumption|].
  eapply Forall_impl; [|exact Hx]. auto.
Qed.

Section Sorting.
Context {A K : Type} (lt : K -> K -> bool) (key : A -> K).
Hypothesis lt_asym : forall a b, lt a b = true -> lt b a = false.
Hypothesis nlt_trans :
  forall a b c, lt b a = false -> lt c b = false -> lt c a = false.

Lemma insert_by_ascending (x : A) (l : list A) :
  ascending lt key l -> ascending lt key (insert_by lt key x l).
Proof.
  unfold ascending. induction 1 as [|y l Hs IH Hy]; simpl.
  - constructor; constructor.
  - destruct (lt (key x) (key y)) eqn:E.
    + constructor; [now constructor|].
      constructor; [now apply lt_asym|].
      rewrite Forall_forall in *. intros z Hz.
      apply (nlt_trans _ (key y)); auto.
    + constructor; [assumption|].
      rewrite Forall_forall in *. intros z Hz.
      apply In_insert_by in Hz. destruct Hz as [->|Hz]; auto.
Qed.

Lemma sorted_ascending (l : list A) : ascending lt key (sorted lt key l).
Proof.
  unfold sorted.
  assert (H : forall acc, ascending lt key acc ->
            ascending lt key
              (fold_left (fun acc x => insert_by lt key x acc) l acc)).
  { induction l as [|a l IH]; intros acc Hacc; simpl; [assumption|].
    apply IH, insert_by_ascending, Hacc. }
  apply H. constructor.
Qed.
End Sorting.

Section StableSort.
Context {A : Type} (le : A -> A -> bool).
Hypothesis le_total : forall a b, le a b = true \/ le b a = true.
Hypothesis le_trans : forall a b c, le a b = true -> le b c = true -> le a c = true.

(** The stable sort is an outcome of [sort_values]: the relation is never
    empty. *)
Lemma stable_sort_sorts (l : list A) : sort_values le l (stable_sort le l).
Proof.
  split; [apply sorted_perm|].
  eapply StronglySorted_impl; [|apply sorted_ascending].
  - intros a b H. simpl in H. now apply negb_false_iff in H.
  - intros a b H. apply negb_true_iff in H. apply negb_false_iff.
    destruct (le_total a b) as [H'|H']; congruence.
  - intros a b c H1 H2. apply negb_false_iff in H1, H2. apply negb_false_iff.
    eauto.
Qed.


End StableSort.

Lemma ligne_le_total (a b : row) : ligne_le a b = true \/ ligne_le b a = true.
Proof. apply String.leb_total. Qed.

Lemma ligne_le_trans (a b c : row) :
  ligne_le a b = true -> ligne_le b c = true -> ligne_le a c = true.
Proof. apply string_leb_trans. Qed.

Lemma count_ge_total {A : Type} (a b : A * nat) :
  count_ge a b = true \/ count_ge b a = true.
Proof. unfold count_ge. rewrite !Nat.leb_le. lia. Qed.

Lemma count_ge_trans {A : Type} (a b c : A * nat) :
  count_ge a b = true -> count_ge b c = true -> count_ge a c = true.
Proof. unfold count_ge. rewrite !Nat.leb_le. lia. Qed.

(** ** The error monad and the preparation of rows *)

Lemma mapM_Forall2 {A B : Type} (f : A -> result B) (l : list A) (l' : list B) :
  mapM f l = Ok l' -> Forall2 (fun a b => f a = Ok b) l l'.
Proof.
  revert l'. induction l as [|a l IH]; simpl; intros l' H.
  - injection H as <-. constructor.
  - destruct (f a) as [b|e] eqn:Ea; simpl in H; [|discriminate].
    destruct (mapM f l) as [bs|e]; simpl in H; [|discriminate].
    injection H as <-. constructor; auto.
Qed.

Lemma mapM_raise {A B : Type} (f : A -> result B) (l : list A) (a : A) (e : exn) :
  In a l -> f a = Raise e -> mapM f l = Raise TypeError.
Proof.
  induction l as [|x l IH]; simpl; intros Hin Ha; [contradiction|].
  destruct (f x) as [b|[]] eqn:Ex; simpl; [|reflexivity].
  destruct Hin as [->|Hin]; [congruence|].
  now rewrite (IH Hin Ha).
Qed.

Lemma mapM_total {A B : Type} (f : A -> result B) (l : list A) :
  (forall a, In a l -> exists b, f a = Ok b) -> exists l', mapM f l = Ok l'.
Proof.
  induction l as [|x l IH]; simpl; intros H.
  - now exists [].
  - destruct (H x (or_introl eq_refl)) as [b ->].
    destruct IH as [bs ->]; [auto|]. simpl. now eexists.
Qed.

Lemma region_of_Str (s : string) : region_of (Str s) = Raise TypeError.
Proof. reflexivity. Qed.

Lemma region_of_NaN : region_of NaN = Ok "Banlieue".
Proof. reflexivity. Qed.

Lemma region_of_Int (z : Z) :
  region_of (Int z)
  = Ok (if (75000 <=? z) && (z <? 76000) then "Paris" else "Banlieue").
Proof.
  unfold region_of; simpl. destruct (75000 <=? z); simpl; [|reflexivity].
  now destruct (z <? 76000).
Qed.

Lemma region_of_Flt (q : Q) :
  region_of (Flt q)
  = Ok (if Qle_bool (inject_Z 75000) q && negb (Qle_bool (inject_Z 76000) q)
        then "Paris" else "Banlieue").
Proof.
  unfold region_of; simpl.
  destruct (Qle_bool (inject_Z 75000) q); simpl; [|reflexivity].
  now destruct (Qle_bool (inject_Z 76000) q).
Qed.

Lemma region_of_total (c : cell) :
  (forall s, c <> Str s) -> exists reg, region_of c = Ok reg.
Proof.
  destruct c as [|z|q|s]; intros H.
  - eexists; apply region_of_NaN.
  - eexists; apply region_of_Int.
  - eexists; apply region_of_Flt.
  - now destruct (H s).
Qed.

Lemma prepare_row_Ok (r0 : raw_row) (r : row) :
  prepare_row r0 = Ok r ->
  r = mk_row (raw_id_ratp r0) (raw_ligne r0) (raw_station r0) (raw_longitude r0)
             (raw_latitude r0) (raw_id_idm r0) (raw_adresse r0)
             (raw_code_postal r0) (raw_commune r0) (raw_num_acces r0)
             (fillna "Non spécifié" (raw_nom_acces r0))
             (fillna "non renseigné" (raw_zone_controlee r0))
             (raw_point_geo r0) (type_ligne_of (raw_ligne r0)) (region r)
  /\ region_of (raw_code_postal r0) = Ok (region r).
Proof.
  unfold prepare_row. destruct (region_of (raw_code_postal r0)) as [reg|e];
    simpl; [|discriminate].
  intros H. injection H as <-. split; reflexivity.
Qed.

Lemma load_Ok_inv (df : list raw_row) (out : list row) :
  load_and_prepare_data df (Ok out) ->
  exists rows,
    prepare_rows df = Ok rows
    /\ Permutation rows out
    /\ StronglySorted (fun a b => ligne_le a b = true) out.
Proof.
  inversion 1 as [rows out' Hp [Hperm Hs]|]; subst. eauto.
Qed.

Lemma load_exists (df : list raw_row) (rows : list row) :
  prepare_rows df = Ok rows ->
  load_and_prepare_data df (Ok (stable_sort ligne_le rows)).
Proof.
  intros H. eapply load_ok; [eassumption|].
  apply stable_sort_sorts; [apply ligne_le_total | apply ligne_le_trans].
Qed.

Lemma In_prepared (df : list raw_row) (out : list row) (r : row) :
  load_and_prepare_data df (Ok out) -> In r out ->
  exists r0, In r0 df /\ prepare_row r0 = Ok r.
Proof.
  intros H Hr. apply load_Ok_inv in H. destruct H as (rows & Hp & Hperm & _).
  apply Permutation_sym in Hperm. apply (Permutation_in _ Hperm) in Hr.
  apply mapM_Forall2 in Hp. clear Hperm.
  induction Hp as [|a b l l' Hab _ IH]; [contradiction|].
  destruct Hr as [->|Hr].
  - exists a. split; [now left | assumption].
  - destruct (IH Hr) as (r0 & Hin & H0). exists r0. split; [now right | assumption].
Qed.

Lemma load_raw3 : load_and_prepare_data raw3 (Ok prepared3).
Proof.
  eapply load_ok; [reflexivity|]. split.
  - apply perm_skip. apply perm_swap.
  - repeat constructor.
Qed.

(** ** The prepared DataFrame *)



(** C4. Every row of the prepared DataFrame comes from a raw row with the two
    [fillna] applied: [zone_controlee] and [nom_acces] are not missing, a
    missing zone status has become 'non renseigné' and a missing access name
    'Non spécifié', a value that was present is kept, and the eleven other
    columns are those of the raw row. *)
Theorem defaults_applied (df : list raw_row) (out : list row) :
  load_and_prepare_data df (Ok out) ->
  exists rows,
    Permutation rows out
    /\ Forall2
         (fun r0 r =>
            zone_controlee r <> NaN
            /\ nom_acces r <> NaN
            /\ (raw_zone_controlee r0 = NaN -> zone_controlee r = Str "non renseigné")
            /\ (raw_nom_acces r0 = NaN -> nom_acces r = Str "Non spécifié")
            /\ (raw_zone_controlee r0 <> NaN -> zone_controlee r = raw_zone_controlee r0)
            /\ (raw_nom_acces r0 <> NaN -> nom_acces r = raw_nom_acces r0)
            /\ id_ratp r = raw_id_ratp r0
            /\ ligne r = raw_ligne r0
            /\ station r = raw_station r0
            /\ longitude r = raw_longitude r0
            /\ latitude r = raw_latitude r0
            /\ id_idm r = raw_id_idm r0
            /\ adresse r = raw_adresse r0
            /\ code_postal r = raw_code_postal r0
            /\ commune r = raw_commune r0
            /\ num_acces r = raw_num_acces r0
            /\ point_geo r = raw_point_geo r0)
         df rows.
Proof.
  intros Hload. apply load_Ok_inv in Hload.
  destruct Hload as (rows & Hp & Hperm & _).
  exists rows. split; [assumption|].
  apply mapM_Forall2 in Hp. clear Hperm.
  induction Hp as [|r0 r l l' H0 _ IH]; [constructor|].
  constructor; [|assumption].
  apply prepare_row_Ok in H0. destruct H0 as [-> _]. simpl.
  destruct (raw_zone_controlee r0); destruct (raw_nom_acces r0); simpl;
    repeat split; congruence.
Qed.

(** The three-row scenario loads with its defaults applied. *)
Lemma defaults_applied_witness :
  load_and_prepare_data raw3 (Ok prepared3)
  /\ exists rows,
       Permutation rows prepared3
       /\ Forall2
            (fun r0 r =>
               zone_controlee r <> NaN
               /\ nom_acces r <> NaN
               /\ (raw_zone_controlee r0 = NaN -> zone_controlee r = Str "non renseigné")
               /\ (raw_nom_acces r0 = NaN -> nom_acces r = Str "Non spécifié")
               /\ (raw_zone_controlee r0 <> NaN -> zone_controlee r = raw_zone_controlee r0)
               /\ (raw_nom_acces r0 <> NaN -> nom_acces r = raw_nom_acces r0)
               /\ id_ratp r = raw_id_ratp r0
               /\ ligne r = raw_ligne r0
               /\ station r = raw_station r0
               /\ longitude r = raw_longitude r0
               /\ latitude r = raw_latitude r0
               /\ id_idm r = raw_id_idm r0
               /\ adresse r = raw_adresse r0
               /\ code_postal r = raw_code_postal r0
               /\ commune r = raw_commune r0
               /\ num_acces r = raw_num_acces r0
               /\ point_geo r = raw_point_geo r0)
            raw3 rows.
Proof.
  split; [exact load_raw3|].
  exact (defaults_applied raw3 prepared3 load_raw3).
Defined.

(** C6, as the code has it. A postal code left as text in any row makes the
    whole preparation raise TypeError, and no DataFrame is returned; when no
    postal code is text a DataFrame is returned; in a returned DataFrame a row
    whose postal code is missing has [region] 'Banlieue'. *)
Theorem region_of_malformed_postcode (df : list raw_row) :
  ((exists r0 s, In r0 df /\ raw_code_postal r0 = Str s) ->
   load_and_prepare_data df (Raise TypeError)
   /\ forall out, ~ load_and_prepare_data df (Ok out))
  /\ ((forall r0 s, In r0 df -> raw_code_postal r0 <> Str s) ->
      exists out, load_and_prepare_data df (Ok out))
  /\ (forall out r,
        load_and_prepare_data df (Ok out) -> In r out ->
        code_postal r = NaN -> region r = "Banlieue").
Proof.
  split; [|split].
  - intros (r0 & s & Hin & Hs).
    assert (Hr : prepare_rows df = Raise TypeError).
    { apply (mapM_raise prepare_row df r0 TypeError Hin).
      unfold prepare_row. now rewrite Hs. }
    split; [now apply load_raise|].
    intros out Hload. apply load_Ok_inv in Hload.
    destruct Hload as (rows & Hp & _). congruence.
  - intros Hno.
    destruct (mapM_total prepare_row df) as [rows Hrows].
    { intros r0 Hin.
      destruct (region_of_total (raw_code_postal r0)) as [reg Hreg].
      { intros s. now apply Hno. }
      unfold prepare_row. rewrite Hreg. simpl. now eexists. }
    eexists. apply load_exists. exact Hrows.
  - intros out r Hload Hr Hc.
    destruct (In_prepared _ _ _ Hload Hr) as (r0 & _ & Hp).
    apply prepare_row_Ok in Hp. destruct Hp as [Hr0 Hreg].
    assert (Hc' : code_postal r = raw_code_postal r0) by (rewrite Hr0; reflexivity).
    rewrite <- Hc', Hc, region_of_NaN in Hreg. congruence.
Qed.

(** A text postal code makes the load raise; a missing one does not. *)
Lemma region_of_malformed_postcode_witness :
  (exists r0 s, In r0 raw_bad /\ raw_code_postal r0 = Str s)
  /\ load_and_prepare_data raw_bad (Raise TypeError)
  /\ (forall r0 s, In r0 raw_missing -> raw_code_postal r0 <> Str s)
  /\ exists out, load_and_prepare_data raw_missing (Ok out).
Proof.
  assert (H1 : exists r0 s, In r0 raw_bad /\ raw_code_postal r0 = Str s).
  { exists (raw_fixture "2" "Ajaccio" (Str "2A004") NaN), "2A004".
    split; [right; left; reflexivity | reflexivity]. }
  assert (H2 : forall r0 s, In r0 raw_missing -> raw_code_postal r0 <> Str s).
  { intros r0 s [<-|[]]. discriminate. }
  split; [exact H1|]. split.
  - exact (proj1 (proj1 (region_of_malformed_postcode raw_bad) H1)).
  - split; [exact H2|].
    exact (proj1 (proj2 (region_of_malformed_postcode raw_missing)) H2).
Defined.

(** C6, as stated, fails: with the postal code "2A004" in one row the
    preparation raises TypeError instead of classifying that row 'Banlieue',
    and returns nothing. *)
Lemma unparseable_postcode_raises :
  load_and_prepare_data raw_bad (Raise TypeError)
  /\ forall out, ~ load_and_prepare_data raw_bad (Ok out).
Proof.
  split.
  - apply load_raise. reflexivity.
  - intros out H. apply load_Ok_inv in H. destruct H as (rows & Hp & _).
    discriminate Hp.
Qed.

(** ** Counting *)

Lemma total_bump {A : Type} (eqb : A -> A -> bool) (k : A) (t : list (A * nat)) :
  total (bump eqb k t) = S (total t).
Proof.
  unfold total. induction t as [|[k' n] t IH]; simpl; [reflexivity|].
  destruct (eqb k k'); simpl; [reflexivity|]. rewrite IH. lia.
Qed.

Lemma total_fold_bump {A : Type} (eqb : A -> A -> bool) (col : list A)
    (t : list (A * nat)) :
  total (fold_left (fun t k => bump eqb k t) col t) = (total t + List.length col)%nat.
Proof.
  revert t. induction col as [|k col IH]; intros t; simpl; [lia|].
  rewrite IH, total_bump. lia.
Qed.

Lemma total_tally {A : Type} (eqb : A -> A -> bool) (col : list A) :
  total (tally eqb col) = List.length col.
Proof. unfold tally. now rewrite total_fold_bump. Qed.

Lemma total_perm {A : Type} (s s' : list (A * nat)) :
  Permutation s s' -> total s = total s'.
Proof.
  unfold total. induction 1; simpl; lia.
Qed.

Lemma total_value_counts {A : Type} (eqb : A -> A -> bool) (col : list A)
    (out : list (A * nat)) :
  value_counts eqb col out -> total out = List.length col.
Proof.
  intros [Hperm _]. rewrite <- (total_perm _ _ Hperm). apply total_tally.
Qed.

Lemma value_counts_exists {A : Type} (eqb : A -> A -> bool) (col : list A) :
  value_counts eqb col (stable_sort count_ge (tally eqb col)).
Proof.
  apply stable_sort_sorts; [apply count_ge_total | apply count_ge_trans].
Qed.

Lemma index_le_total (a b : string * nat) : index_le a b = true \/ index_le b a = true.
Proof. apply String.leb_total. Qed.

Lemma index_le_trans (a b c : string * nat) :
  index_le a b = true -> index_le b c = true -> index_le a c = true.
Proof. apply string_leb_trans. Qed.

Lemma entry_sum_bump (k k' : string) (t : list (string * nat)) :
  entry_sum k (bump String.eqb k' t)
  = if String.eqb k k' then S (entry_sum k t) else entry_sum k t.
Proof.
  unfold entry_sum, total. induction t as [|[x n] t IH]; simpl.
  - destruct (String.eqb k k'); reflexivity.
  - destruct (String.eqb k' x) eqn:E; simpl.
    + apply String.eqb_eq in E. subst x.
      destruct (String.eqb k k'); simpl; lia.
    + destruct (String.eqb k x) eqn:E'; simpl; rewrite IH.
      * destruct (String.eqb k k'); lia.
      * reflexivity.
Qed.

Lemma keys_bump (k : string) (t : list (string * nat)) :
  map fst (bump String.eqb k t)
  = if isin k (map fst t) then map fst t else map fst t ++ [k].
Proof.
  induction t as [|[x n] t IH]; simpl; [reflexivity|].
  destruct (String.eqb k x); simpl; [reflexivity|].
  rewrite IH. now destruct (isin k (map fst t)).
Qed.

Lemma NoDup_snoc (l : list string) (k : string) :
  NoDup l -> ~ In k l -> NoDup (l ++ [k]).
Proof.
  induction 1 as [|x l Hx Hl IH]; simpl; intros Hk.
  - constructor; [auto | constructor].
  - constructor.
    + rewrite in_app_iff. simpl. intuition congruence.
    + apply IH. tauto.
Qed.

Lemma tally_invariant (col : list string) (t : list (string * nat)) :
  NoDup (map fst t) ->
  NoDup (map fst (fold_left (fun t k => bump String.eqb k t) col t))
  /\ forall k,
       entry_sum k (fold_left (fun t k => bump String.eqb k t) col t)
       = (entry_sum k t + count_occ string_dec col k)%nat.
Proof.
  revert t. induction col as [|x col IH]; intros t Hnd; simpl.
  - split; [assumption | intros; lia].
  - destruct (IH (bump String.eqb x t)) as [Hn Hs].
    { rewrite keys_bump. destruct (isin x (map fst t)) eqn:E; [assumption|].
      apply NoDup_snoc; [assumption|]. rewrite <- isin_In. congruence. }
    split; [assumption|]. intros k. rewrite Hs, entry_sum_bump.
    destruct (string_dec x k) as [->|Hd].
    + rewrite String.eqb_refl. lia.
    + destruct (String.eqb k x) eqn:E; [|lia].
      apply String.eqb_eq in E. congruence.
Qed.

Lemma entry_sum_NoDup (t : list (string * nat)) (k : string) (n : nat) :
  NoDup (map fst t) -> In (k, n) t -> entry_sum k t = n.
Proof.
  unfold entry_sum, total. induction t as [|[x m] t IH]; simpl; intros Hnd Hin.
  - contradiction.
  - inversion Hnd as [|? ? Hx Hnd']; subst. destruct Hin as [E|Hin].
    + injection E as -> ->. rewrite String.eqb_refl. simpl.
      rewrite filter_none; [simpl; lia|].
      intros [y p] Hy. simpl. destruct (String.eqb k y) eqn:E; [|reflexivity].
      apply String.eqb_eq in E. subst y. destruct Hx.
      now apply (in_map fst) in Hy.
    + destruct (String.eqb k x) eqn:E.
      * apply String.eqb_eq in E. subst x. destruct Hx.
        now apply (in_map fst) in Hin.
      * now apply IH.
Qed.

Lemma count_occ_rows_of_line (df : list row) (k : string) :
  count_occ string_dec (map ligne df) k = rows_of_line k df.
Proof.
  unfold rows_of_line. induction df as [|r df IH]; simpl; [reflexivity|].
  destruct (string_dec (ligne r) k) as [->|Hd].
  - rewrite String.eqb_refl. simpl. now rewrite IH.
  - destruct (String.eqb (ligne r) k) eqn:E; [|assumption].
    apply String.eqb_eq in E. contradiction.
Qed.


(** C8. The counts per line add up to the number of rows: whatever order
    [value_counts] leaves them in, with or without the [sort_index] of the
    distribution chart, and such a table of counts exists for every
    DataFrame. *)
Theorem counts_sum_to_length (df : list row) :
  (exists vc, value_counts String.eqb (map ligne df) vc)
  /\ (forall vc,
        value_counts String.eqb (map ligne df) vc -> total vc = List.length df)
  /\ (exists out, line_counts df out)
  /\ (forall out, line_counts df out -> total out = List.length df).
Proof.
  split; [|split; [|split]].
  - eexists. apply value_counts_exists.
  - intros vc H. apply total_value_counts in H. now rewrite length_map in H.
  - eexists. eexists. split; [apply value_counts_exists|].
    apply stable_sort_sorts; [apply index_le_total | apply index_le_trans].
  - intros out (vc & Hv & [Hperm _]).
    rewrite <- (total_perm _ _ Hperm).
    apply total_value_counts in Hv. now rewrite length_map in Hv.
Qed.




(** ** The legend order *)

Lemma length_app_string (s t : string) :
  String.length (s ++ t)%string = (String.length s + String.length t)%nat.
Proof. induction s as [|c s IH]; simpl; [reflexivity | now rewrite IH]. Qed.

Lemma substring_all (t : string) : substring 0 (String.length t) t = t.
Proof. induction t as [|c t IH]; simpl; [reflexivity | now rewrite IH]. Qed.

Lemma substring_prefix (s t : string) :
  substring 0 (String.length s) (s ++ t)%string = s.
Proof.
  induction s as [|c s IH]; simpl; [now destruct t | now rewrite IH].
Qed.

Lemma substring_suffix (s t : string) :
  substring (String.length s) (String.length t) (s ++ t)%string = t.
Proof.
  induction s as [|c s IH]; simpl; [apply substring_all | exact IH].
Qed.

Lemma drop_last3_bis (s : string) : drop_last3 (s ++ "bis")%string = s.
Proof.
  unfold drop_last3. rewrite length_app_string. simpl String.length.
  replace (String.length s + 3 - 3)%nat with (String.length s) by lia.
  apply substring_prefix.
Qed.

Lemma endswith_app (s t : string) : endswith (s ++ t)%string t = true.
Proof.
  unfold endswith. rewrite length_app_string.
  replace (String.length s + String.length t - String.length t)%nat
    with (String.length s) by lia.
  rewrite substring_suffix, String.eqb_refl, andb_true_r.
  apply Nat.leb_le. lia.
Qed.

Lemma endswith_bis (s : string) : endswith (s ++ "bis")%string "bis" = true.
Proof. apply endswith_app. Qed.

Lemma all_digits_bis (s : string) : all_digits (s ++ "bis")%string = false.
Proof.
  induction s as [|c s IH]; simpl; [reflexivity|].
  rewrite IH. apply andb_false_r.
Qed.











Lemma int_lt_int (a b : Z) :
  negb (Qle_bool (inject_Z b) (inject_Z a)) = true <-> a < b.
Proof.
  rewrite negb_true_iff, <- not_true_iff_false, Qle_bool_iff.
  unfold Qle, inject_Z; simpl. lia.
Qed.

Lemma int_lt_half (a b : Z) :
  negb (Qle_bool (inject_Z b + (1 # 2)) (inject_Z a)) = true <-> a <= b.
Proof.
  rewrite negb_true_iff, <- not_true_iff_false, Qle_bool_iff.
  unfold Qle, Qplus, inject_Z; simpl. lia.
Qed.

Lemma half_lt_int (a b : Z) :
  negb (Qle_bool (inject_Z a) (inject_Z b + (1 # 2))) = true <-> b < a.
Proof.
  rewrite negb_true_iff, <- not_true_iff_false, Qle_bool_iff.
  unfold Qle, Qplus, inject_Z; simpl. lia.
Qed.

Lemma half_lt_half (a b : Z) :
  negb (Qle_bool (inject_Z b + (1 # 2)) (inject_Z a + (1 # 2))) = true <-> a < b.
Proof.
  rewrite negb_true_iff, <- not_true_iff_false, Qle_bool_iff.
  unfold Qle, Qplus, inject_Z; simpl. lia.
Qed.

Lemma ltb_false_leb (s t : string) :
  String.ltb t s = false <-> String.leb s t = true.
Proof.
  unfold String.ltb, String.leb. rewrite (String.compare_antisym s t).
  destruct (String.compare t s); simpl; split; congruence.
Qed.

Lemma key_lt_asym (a b : key) : key_lt a b = true -> key_lt b a = false.
Proof.
  destruct a as [x|s], b as [y|t]; simpl; try congruence.
  - rewrite negb_true_iff, negb_false_iff, <- not_true_iff_false, !Qle_bool_iff.
    intros H. apply Qlt_le_weak. now apply Qnot_le_lt.
  - unfold String.ltb. rewrite (String.compare_antisym t s).
    destruct (String.compare s t); simpl; congruence.
Qed.

Lemma key_nlt_trans (a b c : key) :
  key_lt b a = false -> key_lt c b = false -> key_lt c a = false.
Proof.
  destruct a as [x|s], b as [y|t], c as [z|u]; simpl; try congruence.
  - rewrite !negb_false_iff, !Qle_bool_iff. apply Qle_trans.
  - rewrite !ltb_false_leb. apply string_leb_trans.
Qed.



(** * Further properties *)

(** ** The filters, composed *)

(** X1. Before any interaction the filtered view is the whole DataFrame: the
    multiselect's default holds every line of the data and the two
    selectboxes start on their catch-all option. *)
Theorem default_selection_keeps_all (df : list row) :
  df_filtered df (default_selection df) = df.
Proof.
  rewrite df_filtered_passes. apply filter_true. intros r Hr.
  apply passes_spec. simpl. split; [|split; now left].
  apply In_default_lines. now apply in_map.
Qed.

(** X2. Filtering twice with the same selection changes nothing more, two
    selections can be applied in either order, and the number of fountains
    announced under the filters never exceeds the size of the data. *)
Theorem df_filtered_compose (df : list row) (sel sel' : selection) :
  df_filtered (df_filtered df sel) sel = df_filtered df sel
  /\ df_filtered (df_filtered df sel) sel' = df_filtered (df_filtered df sel') sel
  /\ (List.length (df_filtered df sel) <= List.length df)%nat.
Proof.
  rewrite !df_filtered_passes, !filter_filter. split; [|split].
  - apply filter_ext. intros r. now destruct (passes sel r).
  - apply filter_ext. intros r. apply andb_comm.
  - apply filter_length_le.
Qed.

(** ** Tables of counts *)

Lemma unique_acc_ext (s1 s2 l : list string) :
  (forall x, In x s1 <-> In x s2) -> unique_acc s1 l = unique_acc s2 l.
Proof.
  revert s1 s2. induction l as [|a l IH]; intros s1 s2 H; simpl; [reflexivity|].
  assert (E : isin a s1 = isin a s2).
  { apply eq_true_iff_eq. rewrite !isin_In. apply H. }
  rewrite E. destruct (isin a s2); [now apply IH|].
  f_equal. apply IH. intros x. simpl. rewrite H. tauto.
Qed.

Lemma keys_fold_bump (col : list string) (t : list (string * nat)) :
  map fst (fold_left (fun t k => bump String.eqb k t) col t)
  = map fst t ++ unique_acc (map fst t) col.
Proof.
  revert t. induction col as [|x col IH]; intros t; simpl.
  - now rewrite app_nil_r.
  - rewrite IH, keys_bump. destruct (isin x (map fst t)); [reflexivity|].
    rewrite <- app_assoc. simpl. do 2 f_equal. apply unique_acc_ext.
    intros y. rewrite in_app_iff. simpl. tauto.
Qed.

Lemma keys_tally (col : list string) :
  map fst (tally String.eqb col) = unique col.
Proof. apply (keys_fold_bump col []). Qed.

Lemma In_unique (col : list string) (x : string) : In x (unique col) <-> In x col.
Proof. unfold unique. rewrite In_unique_acc. simpl. tauto. Qed.

Lemma tally_NoDup (col : list string) : NoDup (map fst (tally String.eqb col)).
Proof. apply (tally_invariant col []). constructor. Qed.

Lemma In_tally (col : list string) (k : string) (n : nat) :
  In (k, n) (tally String.eqb col) <->
  In k col /\ n = count_occ string_dec col k.
Proof.
  destruct (tally_invariant col []) as [Hnd Hs]; [constructor|].
  fold (tally String.eqb col) in Hnd, Hs. split.
  - intros Hin. split.
    + apply In_unique. rewrite <- keys_tally. now apply (in_map fst) in Hin.
    + rewrite <- (entry_sum_NoDup _ _ _ Hnd Hin), Hs. reflexivity.
  - intros [Hk ->]. apply In_unique in Hk. rewrite <- keys_tally in Hk.
    apply in_map_iff in Hk. destruct Hk as ([k' n] & E & Hin). simpl in E. subst k'.
    rewrite <- (entry_sum_NoDup _ _ _ Hnd Hin), Hs in Hin. exact Hin.
Qed.

Lemma In_value_counts_col (col : list string) (out : list (string * nat))
    (k : string) (n : nat) :
  value_counts String.eqb col out ->
  (In (k, n) out <-> In k col /\ n = count_occ string_dec col k).
Proof.
  intros [Hperm _]. rewrite <- In_tally. split; apply Permutation_in.
  - now apply Permutation_sym.
  - assumption.
Qed.

Lemma value_counts_NoDup (col : list string) (out : list (string * nat)) :
  value_counts String.eqb col out -> NoDup (map fst out).
Proof.
  intros [Hperm _].
  apply (Permutation_NoDup (Permutation_map fst Hperm)), tally_NoDup.
Qed.

Lemma value_counts_length (col : list string) (out : list (string * nat)) :
  value_counts String.eqb col out -> List.length out = nunique col.
Proof.
  intros [Hperm _]. unfold nunique.
  rewrite <- (Permutation_length Hperm), <- keys_tally. now rewrite length_map.
Qed.









Lemma unique_acc_length (seen l : list string) :
  (List.length (unique_acc seen l) <= List.length l)%nat.
Proof.
  revert seen. induction l as [|a l IH]; intros seen; simpl; [lia|].
  destruct (isin a seen); simpl.
  - specialize (IH seen). lia.
  - specialize (IH (a :: seen)). lia.
Qed.

Lemma nunique_facts (df : list row) :
  nunique (map ligne df) = List.length (default_lines df)
  /\ (forall vc,
        value_counts String.eqb (map ligne df) vc ->
        List.length vc = nunique (map ligne df))
  /\ (forall out, line_counts df out -> List.length out = nunique (map ligne df))
  /\ (nunique (map ligne df) <= List.length df)%nat
  /\ (nunique (map ligne df) = 0%nat <-> df = []).
Proof.
  split; [|split; [|split; [|split]]].
  - unfold nunique, default_lines. apply Permutation_length, sorted_perm.
  - intros vc. apply value_counts_length.
  - intros out (vc & Hv & Hperm & _).
    rewrite <- (Permutation_length Hperm). now apply value_counts_length.
  - unfold nunique, unique.
    pose proof (unique_acc_length [] (map ligne df)) as H.
    now rewrite length_map in H.
  - unfold nunique, unique. destruct df as [|r df]; simpl.
    + tauto.
    + split; discriminate.
Qed.

Lemma firstn_subseq_in {A : Type} (n : nat) (l : list A) (x : A) :
  In x (firstn n l) -> In x l.
Proof.
  intros H. rewrite <- (firstn_skipn n l). apply in_or_app. now left.
Qed.

(** X4. The KPI "lines equipped" ([nunique]) is the number of options of the
    line multiselect and the number of entries of the counts per line, sorted
    or not; it is at most the number of fountains, and zero only for an empty
    DataFrame. *)
Theorem nunique_ligne (df : list row) :
  nunique (map ligne df) = List.length (default_lines df)
  /\ (forall vc,
        value_counts String.eqb (map ligne df) vc ->
        List.length vc = nunique (map ligne df))
  /\ (forall out, line_counts df out -> List.length out = nunique (map ligne df))
  /\ (nunique (map ligne df) <= List.length df)%nat
  /\ (nunique (map ligne df) = 0%nat <-> df = []).
Proof. exact (nunique_facts df). Qed.

(** ** The derived columns in the charts and the filters *)

Lemma prepared_row_facts (raw : list raw_row) (df : list row) (r : row) :
  load_and_prepare_data raw (Ok df) -> In r df ->
  type_ligne r = type_ligne_of (ligne r)
  /\ (region r = "Paris" \/ region r = "Banlieue").
Proof.
  intros Hload Hr. destruct (In_prepared _ _ _ Hload Hr) as (r0 & _ & Hp).
  apply prepare_row_Ok in Hp. destruct Hp as [Hr0 Hreg]. split.
  - rewrite Hr0. reflexivity.
  - revert Hreg. unfold region_of.
    destruct (ge_int (raw_code_postal r0) 75000) as [[|]|]; simpl;
      try discriminate; [|intros [= <-]; now right].
    destruct (lt_int (raw_code_postal r0) 76000) as [[|]|]; simpl;
      try discriminate; intros [= <-]; [now left | now right].
Qed.

Lemma type_ligne_of_cases (x : string) :
  type_ligne_of x = "Métro" \/ type_ligne_of x = "RER".
Proof.
  unfold type_ligne_of. destruct (isin x ["A"; "B"; "C"; "D"; "E"]); auto.
Qed.

Lemma count_occ_column (f : row -> string) (df : list row) (k : string) :
  count_occ string_dec (map f df) k
  = List.length (filter (fun r => String.eqb (f r) k) df).
Proof.
  induction df as [|r df IH]; simpl; [reflexivity|].
  destruct (string_dec (f r) k) as [->|Hd].
  - rewrite String.eqb_refl. simpl. now rewrite IH.
  - destruct (String.eqb (f r) k) eqn:E; [|assumption].
    apply String.eqb_eq in E. contradiction.
Qed.

Lemma two_values_split (f : row -> string) (a b : string) (df : list row) :
  a <> b ->
  (forall r, In r df -> f r = a \/ f r = b) ->
  (List.length (filter (fun r => String.eqb (f r) a) df)
   + List.length (filter (fun r => String.eqb (f r) b) df))%nat
  = List.length df.
Proof.
  intros Hab. induction df as [|r df IH]; simpl; intros H; [reflexivity|].
  specialize (IH (fun r' Hr' => H r' (or_intror Hr'))).
  destruct (H r (or_introl eq_refl)) as [E|E]; rewrite E, String.eqb_refl.
  - destruct (String.eqb a b) eqn:E'.
    + apply String.eqb_eq in E'. contradiction.
    + simpl. lia.
  - destruct (String.eqb b a) eqn:E'.
    + apply String.eqb_eq in E'. congruence.
    + simpl. lia.
Qed.

Lemma two_keys_table (f : row -> string) (a b : string) (df : list row)
    (out : list (string * nat)) :
  (forall r, In r df -> f r = a \/ f r = b) ->
  value_counts String.eqb (map f df) out ->
  (List.length out <= 2)%nat
  /\ (forall k n,
        In (k, n) out ->
        (k = a \/ k = b)
        /\ n = List.length (filter (fun r => String.eqb (f r) k) df)
        /\ (0 < n)%nat)
  /\ total out = List.length df.
Proof.
  intros Hf Hv.
  assert (Hent : forall k n, In (k, n) out ->
            (k = a \/ k = b)
            /\ n = List.length (filter (fun r => String.eqb (f r) k) df)
            /\ (0 < n)%nat).
  { intros k n Hin. apply (In_value_counts_col _ _ k n Hv) in Hin.
    destruct Hin as [Hk ->]. split; [|split].
    - apply in_map_iff in Hk. destruct Hk as (r & <- & Hr). now apply Hf.
    - apply count_occ_column.
    - now apply count_occ_In. }
  split; [|split; [exact Hent|]].
  - rewrite <- (length_map fst out).
    change 2%nat with (List.length [a; b]).
    apply NoDup_incl_length; [eapply value_counts_NoDup, Hv|].
    intros k Hk. apply in_map_iff in Hk. destruct Hk as ([k' n] & <- & Hin).
    destruct (Hent _ _ Hin) as [[->| ->] _]; simpl; auto.
  - apply total_value_counts in Hv. now rewrite length_map in Hv.
Qed.

Lemma type_counts_prepared3 :
  type_counts prepared3 [("Métro", 2%nat); ("RER", 1%nat)].
Proof. split; [apply Permutation_refl | repeat constructor]. Qed.

(** X5. On a prepared DataFrame the Métro-vs-RER chart has at most two bars,
    labelled 'Métro' or 'RER'; each bar is the number of rows of that type,
    never zero, and the bars add up to the number of fountains; the rows are
    split between the two types. *)
Theorem type_counts_two_bars (raw : list raw_row) (df : list row)
    (out : list (string * nat)) :
  load_and_prepare_data raw (Ok df) ->
  type_counts df out ->
  (List.length out <= 2)%nat
  /\ (forall k n,
        In (k, n) out ->
        (k = "Métro" \/ k = "RER") /\ n = len_type k df /\ (0 < n)%nat)
  /\ total out = List.length df
  /\ (len_type "Métro" df + len_type "RER" df)%nat = List.length df.
Proof.
  intros Hload Hv.
  assert (Hf : forall r, In r df -> type_ligne r = "Métro" \/ type_ligne r = "RER").
  { intros r Hr. destruct (prepared_row_facts _ _ _ Hload Hr) as [-> _].
    apply type_ligne_of_cases. }
  destruct (two_keys_table type_ligne _ _ df out Hf Hv) as (H1 & H2 & H3).
  split; [exact H1|]. split; [exact H2|]. split; [exact H3|].
  apply (two_values_split type_ligne); [discriminate | exact Hf].
Qed.

(** The chart of the three-row scenario: two metro rows, one RER row. *)
Lemma type_counts_two_bars_witness :
  load_and_prepare_data raw3 (Ok prepared3)
  /\ type_counts prepared3 [("Métro", 2%nat); ("RER", 1%nat)]
  /\ (len_type "Métro" prepared3 + len_type "RER" prepared3)%nat
     = List.length prepared3.
Proof.
  split; [exact load_raw3|]. split; [exact type_counts_prepared3|].
  exact (proj2 (proj2 (proj2
    (type_counts_two_bars raw3 prepared3 _ load_raw3 type_counts_prepared3)))).
Defined.

Lemma region_counts_prepared3 :
  region_counts prepared3 [("Paris", 2%nat); ("Banlieue", 1%nat)].
Proof. split; [apply Permutation_refl | repeat constructor]. Qed.

(** X6. On a prepared DataFrame every fountain is counted either in Paris or
    in the suburbs: the two numbers of the summary add up to the total, and
    the Paris-vs-suburbs pie has at most two slices, 'Paris' or 'Banlieue',
    each the number of rows of that region. *)
Theorem region_counts_split (raw : list raw_row) (df : list row)
    (out : list (string * nat)) :
  load_and_prepare_data raw (Ok df) ->
  region_counts df out ->
  (len_region "Paris" df + len_region "Banlieue" df)%nat = List.length df
  /\ (List.length out <= 2)%nat
  /\ (forall k n,
        In (k, n) out ->
        (k = "Paris" \/ k = "Banlieue") /\ n = len_region k df /\ (0 < n)%nat)
  /\ total out = List.length df.
Proof.
  intros Hload Hv.
  assert (Hf : forall r, In r df -> region r = "Paris" \/ region r = "Banlieue").
  { intros r Hr. now destruct (prepared_row_facts _ _ _ Hload Hr) as [_ H]. }
  destruct (two_keys_table region _ _ df out Hf Hv) as (H1 & H2 & H3).
  split; [apply (two_values_split region); [discriminate | exact Hf]|].
  split; [exact H1|]. split; [exact H2 | exact H3].
Qed.

(** The pie of the three-row scenario: two rows in Paris, one outside. *)
Lemma region_counts_split_witness :
  load_and_prepare_data raw3 (Ok prepared3)
  /\ region_counts prepared3 [("Paris", 2%nat); ("Banlieue", 1%nat)]
  /\ (len_region "Paris" prepared3 + len_region "Banlieue" prepared3)%nat
     = List.length prepared3.
Proof.
  split; [exact load_raw3|]. split; [exact region_counts_prepared3|].
  exact (proj1
    (region_counts_split raw3 prepared3 _ load_raw3 region_counts_prepared3)).
Defined.

Lemma isin_filter (p : string -> bool) (x : string) (l : list string) :
  isin x (filter p l) = isin x l && p x.
Proof.
  apply eq_true_iff_eq.
  rewrite andb_true_iff, !isin_In, filter_In. tauto.
Qed.

(** X7. On a prepared DataFrame the type filter is a line filter: choosing
    'RER' keeps what choosing the selected lines among A, B, C, D, E would
    keep with no type filter, and choosing 'Métro' what the other selected
    lines would keep. *)
Theorem type_filter_is_line_filter (raw : list raw_row) (df : list row)
    (lines : list string) (zone : string) :
  load_and_prepare_data raw (Ok df) ->
  df_filtered df (mk_selection lines "RER" zone)
  = df_filtered df
      (mk_selection (filter (fun l => isin l ["A"; "B"; "C"; "D"; "E"]) lines)
                    "Tous" zone)
  /\ df_filtered df (mk_selection lines "Métro" zone)
     = df_filtered df
         (mk_selection
            (filter (fun l => negb (isin l ["A"; "B"; "C"; "D"; "E"])) lines)
            "Tous" zone).
Proof.
  intros Hload. rewrite !df_filtered_passes.
  split; apply filter_ext_in; intros r Hr;
    destruct (prepared_row_facts _ _ _ Hload Hr) as [Ht _];
    unfold passes; cbn [selected_lines selected_type selected_zone];
    rewrite isin_filter, Ht; unfold type_ligne_of;
    destruct (isin (ligne r) ["A"; "B"; "C"; "D"; "E"]);
    destruct (isin (ligne r) lines); reflexivity.
Qed.

(** In the three-row scenario 'RER' keeps what line A alone keeps. *)
Lemma type_filter_is_line_filter_witness :
  load_and_prepare_data raw3 (Ok prepared3)
  /\ df_filtered prepared3 (mk_selection ["1"; "14"; "A"] "RER" "Toutes")
     = df_filtered prepared3
         (mk_selection
            (filter (fun l => isin l ["A"; "B"; "C"; "D"; "E"]) ["1"; "14"; "A"])
            "Tous" "Toutes").
Proof.
  split; [exact load_raw3|].
  exact (proj1 (type_filter_is_line_filter raw3 prepared3 ["1"; "14"; "A"]
                  "Toutes" load_raw3)).
Defined.

(** ** Rows in, rows out *)

Lemma prepare_rows_Forall2 (raw : list raw_row) (rows : list row) :
  prepare_rows raw = Ok rows ->
  Forall2
    (fun r0 r =>
       ligne r = raw_ligne r0
       /\ zone_controlee r = fillna "non renseigné" (raw_zone_controlee r0))
    raw rows.
Proof.
  intros H. apply mapM_Forall2 in H.
  induction H as [|r0 r l l' H0 _ IH]; constructor; [|assumption].
  apply prepare_row_Ok in H0. destruct H0 as [-> _]. split; reflexivity.
Qed.

Lemma Permutation_filter_length {A : Type} (f : A -> bool) (l l' : list A) :
  Permutation l l' -> List.length (filter f l) = List.length (filter f l').
Proof.
  induction 1 as [|x l l' _ IH|x y l|l l' l'' _ IH1 _ IH2]; simpl.
  - reflexivity.
  - destruct (f x); simpl; now rewrite IH.
  - destruct (f x), (f y); reflexivity.
  - now rewrite IH1.
Qed.

Lemma Forall2_filter_length {A B : Type} (R : A -> B -> Prop)
    (f : A -> bool) (g : B -> bool) (l : list A) (l' : list B) :
  (forall a b, R a b -> f a = g b) ->
  Forall2 R l l' ->
  List.length (filter f l) = List.length (filter g l').
Proof.
  intros Hfg. induction 1 as [|a b l l' Hab _ IH]; simpl; [reflexivity|].
  rewrite (Hfg a b Hab). destruct (g b); simpl; now rewrite IH.
Qed.

Lemma Forall2_map_eq {A B C : Type} (R : A -> B -> Prop)
    (f : A -> C) (g : B -> C) (l : list A) (l' : list B) :
  (forall a b, R a b -> g b = f a) -> Forall2 R l l' -> map g l' = map f l.
Proof.
  intros Hfg. induction 1 as [|a b l l' Hab _ IH]; simpl; [reflexivity|].
  now rewrite (Hfg a b Hab), IH.
Qed.

(** X8. Preparation keeps every row of the file: the KPI "total fountains"
    is the number of rows read, and each line has as many rows after
    preparation as before. *)
Theorem prepared_row_count (raw : list raw_row) (df : list row) :
  load_and_prepare_data raw (Ok df) ->
  List.length df = List.length raw
  /\ Permutation (map raw_ligne raw) (map ligne df)
  /\ forall k,
       rows_of_line k df
       = List.length (filter (fun r0 => String.eqb (raw_ligne r0) k) raw).
Proof.
  intros Hload. apply load_Ok_inv in Hload.
  destruct Hload as (rows & Hp & Hperm & _).
  apply prepare_rows_Forall2 in Hp. split; [|split].
  - rewrite <- (Permutation_length Hperm). symmetry.
    eapply Forall2_length, Hp.
  - rewrite <- (Forall2_map_eq _ raw_ligne ligne raw rows (fun a b H => proj1 H) Hp).
    now apply Permutation_map.
  - intros k. unfold rows_of_line.
    rewrite <- (Permutation_filter_length _ _ _ Hperm). symmetry.
    apply (Forall2_filter_length _ _ _ _ _ (fun a b H => eq_sym (f_equal (fun x => String.eqb x k) (proj1 H))) Hp).
Qed.

(** The three-row scenario keeps its three rows. *)
Lemma prepared_row_count_witness :
  load_and_prepare_data raw3 (Ok prepared3)
  /\ List.length prepared3 = List.length raw3.
Proof.
  split; [exact load_raw3|].
  exact (proj1 (prepared_row_count raw3 prepared3 load_raw3)).
Defined.

Lemma rows_of_zone_filtered (s : string) (df : list row) :
  s <> "Toutes" ->
  rows_of_zone s df
  = List.length (df_filtered df (mk_selection (default_lines df) "Tous" s)).
Proof.
  intros Hs. unfold rows_of_zone. rewrite df_filtered_passes.
  f_equal. apply filter_ext_in. intros r Hr. unfold passes; simpl.
  assert (E : isin (ligne r) (default_lines df) = true).
  { apply isin_In, In_default_lines. now apply in_map. }
  rewrite E. destruct (String.eqb s "Toutes") eqn:E'; [|reflexivity].
  apply String.eqb_eq in E'. contradiction.
Qed.

(** X9. After preparation a missing zone status cannot be told from one
    written 'non renseigné': the zone filter 'non renseigné', alone, keeps
    as many rows as the file has rows with the status missing or spelled that
    way. *)
Theorem unspecified_zone_rows (raw : list raw_row) (df : list row) :
  load_and_prepare_data raw (Ok df) ->
  List.length
    (df_filtered df (mk_selection (default_lines df) "Tous" "non renseigné"))
  = List.length (filter raw_unspecified raw).
Proof.
  intros Hload. rewrite <- rows_of_zone_filtered by discriminate.
  apply load_Ok_inv in Hload. destruct Hload as (rows & Hp & Hperm & _).
  apply prepare_rows_Forall2 in Hp. unfold rows_of_zone.
  rewrite <- (Permutation_filter_length _ _ _ Hperm). symmetry.
  eapply Forall2_filter_length; [|exact Hp].
  intros r0 r [_ Hz]. rewrite Hz. unfold raw_unspecified.
  destruct (raw_zone_controlee r0); reflexivity.
Qed.

(** In the three-row scenario one status is missing, and one row is kept. *)
Lemma unspecified_zone_rows_witness :
  load_and_prepare_data raw3 (Ok prepared3)
  /\ List.length
       (df_filtered prepared3
          (mk_selection (default_lines prepared3) "Tous" "non renseigné"))
     = List.length (filter raw_unspecified raw3).
Proof.
  split; [exact load_raw3|].
  exact (unspecified_zone_rows raw3 prepared3 load_raw3).
Defined.

(** ** The zone pie *)

Lemma cell_eqb_str_compat (k k' : cell) (s : string) :
  cell_eqb k k' = true -> cell_eq_str k s = cell_eq_str k' s.
Proof.
  destruct k, k'; simpl; try discriminate; try reflexivity.
  intros E. apply String.eqb_eq in E. now subst.
Qed.

Lemma bump_other_keys (s : string) (k : cell) (t : list (cell * nat)) :
  cell_eq_str k s = false ->
  filter (fun p => cell_eq_str (fst p) s) (bump cell_eqb k t)
  = filter (fun p => cell_eq_str (fst p) s) t.
Proof.
  intros Hk. induction t as [|[k' n] t IH]; simpl.
  - now rewrite Hk.
  - destruct (cell_eqb k k') eqn:E; simpl.
    + now rewrite <- (cell_eqb_str_compat k k' s E), Hk.
    + now rewrite IH.
Qed.

Lemma cell_entry_sum_bump (s : string) (k : cell) (t : list (cell * nat)) :
  cell_entry_sum s (bump cell_eqb k t)
  = if cell_eq_str k s then S (cell_entry_sum s t) else cell_entry_sum s t.
Proof.
  unfold cell_entry_sum, total. induction t as [|[k' n] t IH]; simpl.
  - destruct (cell_eq_str k s); reflexivity.
  - destruct (cell_eqb k k') eqn:E; simpl.
    + rewrite <- (cell_eqb_str_compat k k' s E).
      destruct (cell_eq_str k s); simpl; lia.
    + destruct (cell_eq_str k' s) eqn:E'; simpl; rewrite IH.
      * destruct (cell_eq_str k s); lia.
      * reflexivity.
Qed.

Lemma bump_one_entry (s : string) (k : cell) (t : list (cell * nat)) :
  (List.length (filter (fun p => cell_eq_str (fst p) s) t) <= 1)%nat ->
  (List.length (filter (fun p => cell_eq_str (fst p) s) (bump cell_eqb k t)) <= 1)%nat.
Proof.
  induction t as [|[k' n] t IH]; simpl.
  - destruct (cell_eq_str k s); simpl; lia.
  - destruct (cell_eqb k k') eqn:E; simpl.
    + destruct (cell_eq_str k' s); simpl; lia.
    + destruct (cell_eq_str k' s) eqn:E'; simpl; [|exact IH].
      intros H. rewrite bump_other_keys; [exact H|].
      destruct (cell_eq_str k s) eqn:Ek; [|reflexivity].
      apply cell_eq_str_eq in Ek, E'. subst k k'. simpl in E.
      now rewrite String.eqb_refl in E.
Qed.

Lemma cell_tally_invariant (s : string) (col : list cell) (t : list (cell * nat)) :
  (List.length (filter (fun p => cell_eq_str (fst p) s) t) <= 1)%nat ->
  (List.length
     (filter (fun p => cell_eq_str (fst p) s)
             (fold_left (fun t k => bump cell_eqb k t) col t)) <= 1)%nat
  /\ cell_entry_sum s (fold_left (fun t k => bump cell_eqb k t) col t)
     = (cell_entry_sum s t
        + List.length (filter (fun c => cell_eq_str c s) col))%nat.
Proof.
  revert t. induction col as [|c col IH]; intros t Ht; simpl.
  - split; [assumption | lia].
  - destruct (IH (bump cell_eqb c t) (bump_one_entry s c t Ht)) as [H1 H2].
    split; [assumption|]. rewrite H2, cell_entry_sum_bump.
    destruct (cell_eq_str c s); simpl; lia.
Qed.

Lemma one_entry_sum (s : string) (t : list (cell * nat)) (n : nat) :
  (List.length (filter (fun p => cell_eq_str (fst p) s) t) <= 1)%nat ->
  In (Str s, n) t -> cell_entry_sum s t = n.
Proof.
  intros Hlen Hin. unfold cell_entry_sum.
  assert (Hf : In (Str s, n) (filter (fun p => cell_eq_str (fst p) s) t)).
  { apply filter_In. split; [assumption|]. simpl. apply String.eqb_refl. }
  destruct (filter (fun p => cell_eq_str (fst p) s) t) as [|a [|b l]];
    simpl in *; [contradiction| |lia].
  destruct Hf as [->|[]]. unfold total. simpl. lia.
Qed.

Lemma entry_of_sum (s : string) (t : list (cell * nat)) :
  (List.length (filter (fun p => cell_eq_str (fst p) s) t) <= 1)%nat ->
  (0 < cell_entry_sum s t)%nat -> In (Str s, cell_entry_sum s t) t.
Proof.
  intros Hlen Hpos. unfold cell_entry_sum in *.
  destruct (filter (fun p => cell_eq_str (fst p) s) t) as [|[c n] [|b l]] eqn:E;
    simpl in *; [unfold total in Hpos; simpl in Hpos; lia| |lia].
  assert (Hin : In (c, n) (filter (fun p => cell_eq_str (fst p) s) t)).
  { rewrite E. now left. }
  apply filter_In in Hin. destruct Hin as [Hin Hc]. simpl in Hc.
  apply cell_eq_str_eq in Hc. subst c.
  unfold total. simpl. now rewrite Nat.add_0_r.
Qed.

Lemma zone_column_rows (s : string) (df : list row) :
  List.length
    (filter (fun c => cell_eq_str c s) (filter notna (map zone_controlee df)))
  = rows_of_zone s df.
Proof.
  unfold rows_of_zone. induction df as [|r df IH]; simpl; [reflexivity|].
  destruct (zone_controlee r); simpl; try assumption.
  destruct (String.eqb s0 s); simpl; now rewrite IH.
Qed.

Lemma zone_counts_prepared3 :
  zone_counts prepared3
    [(Str "en zone contrôlée", 2%nat); (Str "non renseigné", 1%nat)].
Proof. split; [apply Permutation_refl | repeat constructor]. Qed.

(** X10. In the zone pie, the slice labelled with a status is the number of
    rows having that status, which is what the zone filter set to it keeps on
    its own; a status that some row has does have a slice; for
    'en zone contrôlée' the slice is the KPI shown above the filters; and the
    slices add up to the number of rows whose status is not missing. *)
Theorem zone_counts_slices (df : list row) (out : list (cell * nat)) (s : string) :
  zone_counts df out ->
  (forall n, In (Str s, n) out -> n = rows_of_zone s df /\ (0 < n)%nat)
  /\ ((0 < rows_of_zone s df)%nat -> In (Str s, rows_of_zone s df) out)
  /\ (s <> "Toutes" ->
      rows_of_zone s df
      = List.length (df_filtered df (mk_selection (default_lines df) "Tous" s)))
  /\ (forall n, In (Str "en zone contrôlée", n) out -> n = zone_ctrl df)
  /\ total out
     = List.length (filter (fun r => notna (zone_controlee r)) df).
Proof.
  intros [Hperm _].
  assert (Hinv : forall s',
            (List.length
               (filter (fun p => cell_eq_str (fst p) s')
                  (tally cell_eqb (filter notna (map zone_controlee df)))) <= 1)%nat
            /\ cell_entry_sum s'
                 (tally cell_eqb (filter notna (map zone_controlee df)))
               = rows_of_zone s' df).
  { intros s'.
    destruct (cell_tally_invariant s' (filter notna (map zone_controlee df)) [])
      as [H1 H2]; [simpl; lia|].
    split; [exact H1|]. unfold tally. rewrite H2, zone_column_rows.
    reflexivity. }
  assert (Hent : forall s' n, In (Str s', n) out -> n = rows_of_zone s' df).
  { intros s' n Hin. destruct (Hinv s') as [H1 H2].
    apply (Permutation_in _ (Permutation_sym Hperm)) in Hin.
    now rewrite <- H2, (one_entry_sum _ _ _ H1 Hin). }
  split; [|split; [|split; [|split]]].
  - intros n Hin. split; [now apply Hent|].
    destruct (Hinv s) as [H1 H2].
    apply (Permutation_in _ (Permutation_sym Hperm)) in Hin.
    assert (Hpos : forall col t,
              Forall (fun p : cell * nat => (0 < snd p)%nat) t ->
              Forall (fun p : cell * nat => (0 < snd p)%nat)
                     (fold_left (fun t k => bump cell_eqb k t) col t)).
    { induction col as [|c col IH]; intros t Ht; simpl; [assumption|].
      apply IH. clear IH. induction Ht as [|[k' m] t Hm Ht IHt]; simpl.
      - constructor; [simpl; lia | constructor].
      - destruct (cell_eqb c k'); constructor; simpl in *; try lia; assumption. }
    specialize (Hpos (filter notna (map zone_controlee df)) [] (Forall_nil _)).
    rewrite Forall_forall in Hpos. apply (Hpos _ Hin).
  - intros Hpos. destruct (Hinv s) as [H1 H2].
    apply (Permutation_in _ Hperm). rewrite <- H2. apply entry_of_sum; [assumption|].
    now rewrite H2.
  - apply rows_of_zone_filtered.
  - intros n Hin. now apply Hent.
  - rewrite <- (total_perm _ _ Hperm), total_tally.
    clear. induction df as [|r df IH]; simpl; [reflexivity|].
    destruct (notna (zone_controlee r)); simpl; now rewrite IH.
Qed.

(** The pie of the three-row scenario. *)
Lemma zone_counts_slices_witness :
  zone_counts prepared3
    [(Str "en zone contrôlée", 2%nat); (Str "non renseigné", 1%nat)]
  /\ forall n,
       In (Str "en zone contrôlée", n)
          [(Str "en zone contrôlée", 2%nat); (Str "non renseigné", 1%nat)] ->
       n = zone_ctrl prepared3.
Proof.
  split; [exact zone_counts_prepared3|].
  exact (proj1 (proj2 (proj2 (proj2
    (zone_counts_slices prepared3 _ "non renseigné" zone_counts_prepared3))))).
Defined.

(** ** The legend of the map *)

Lemma NoDup_unique_acc (seen l : list string) : NoDup (unique_acc seen l).
Proof.
  revert seen. induction l as [|a l IH]; intros seen; simpl.
  - constructor.
  - destruct (isin a seen); [apply IH|].
    constructor; [|apply IH].
    rewrite In_unique_acc. simpl. tauto.
Qed.



(** ** The axis of the top-10 chart *)

Lemma fold_max_below (m : nat) (ns : list nat) :
  Forall (fun n => (n <= m)%nat) ns -> fold_left Nat.max ns m = m.
Proof.
  induction 1 as [|n ns Hn _ IH]; simpl; [reflexivity|].
  now rewrite Nat.max_l.
Qed.

Lemma rows_of_line_absent (k : string) (df : list row) :
  ~ In k (map ligne df) -> rows_of_line k df = 0%nat.
Proof.
  intros H. unfold rows_of_line. rewrite filter_none; [reflexivity|].
  intros r Hr. destruct (String.eqb (ligne r) k) eqn:E; [|reflexivity].
  apply String.eqb_eq in E. destruct H. rewrite <- E. now apply in_map.
Qed.

Lemma top_lines_prepared3 :
  top_lines 10 prepared3 [("1", 1%nat); ("14", 1%nat); ("A", 1%nat)].
Proof.
  exists [("1", 1%nat); ("14", 1%nat); ("A", 1%nat)]. split; [|reflexivity].
  split; [apply Permutation_refl | repeat constructor].
Qed.

(** X12. The x-axis of the top-N chart is scaled by [top_lines.values.max()].
    On an empty DataFrame (or with N = 0) the table is empty and the maximum
    raises; otherwise the maximum is the count of the first entry, which is
    the largest number of fountains that any line has. *)
Theorem top_lines_max (n : nat) (df : list row) (out : list (string * nat)) :
  top_lines n df out ->
  (df = [] \/ n = 0%nat -> values_max out = None)
  /\ (df <> [] -> (0 < n)%nat ->
      exists k m,
        values_max out = Some m
        /\ hd_error out = Some (k, m)
        /\ m = rows_of_line k df
        /\ (0 < m)%nat
        /\ forall k', (rows_of_line k' df <= m)%nat).
Proof.
  intros (vc & Hv & ->). unfold head. split.
  - intros [-> | ->].
    + apply value_counts_nil in Hv. subst vc. now rewrite firstn_nil.
    + reflexivity.
  - intros Hdf Hn.
    destruct vc as [|[k m] vc].
    { apply value_counts_length in Hv. simpl in Hv.
      symmetry in Hv.
      apply (proj2 (proj2 (proj2 (proj2 (nunique_facts df))))) in Hv.
      contradiction. }
    destruct n as [|n]; [lia|].
    assert (Hin : forall k' c, In (k', c) ((k, m) :: vc) ->
              In k' (map ligne df) /\ c = rows_of_line k' df).
    { intros k' c H. apply (In_value_counts_col _ _ k' c Hv) in H.
      now rewrite count_occ_rows_of_line in H. }
    assert (Hle : Forall (fun p : string * nat => (snd p <= m)%nat) vc).
    { destruct Hv as [_ Hs]. inversion Hs as [|? ? _ Hx]; subst.
      eapply Forall_impl; [|exact Hx]. intros p. unfold count_ge. simpl.
      now rewrite Nat.leb_le. }
    destruct (Hin k m (or_introl eq_refl)) as [Hk Hm].
    exists k, m. split; [|split; [reflexivity|split; [exact Hm|split]]].
    + unfold values_max. simpl. f_equal. apply fold_max_below.
      rewrite Forall_forall in *. intros c Hc.
      apply in_map_iff in Hc. destruct Hc as (p & <- & Hp).
      apply Hle. eapply (firstn_subseq_in _ _ _ Hp).
    + rewrite Hm, <- count_occ_rows_of_line. now apply count_occ_In.
    + intros k'. destruct (in_dec string_dec k' (map ligne df)) as [Hk'|Hk'].
      * assert (H : In (k', rows_of_line k' df) ((k, m) :: vc)).
        { apply (In_value_counts_col _ _ _ _ Hv).
          now rewrite count_occ_rows_of_line. }
        destruct H as [E|H]; [injection E as _ <-; lia|].
        rewrite Forall_forall in Hle. apply (Hle _ H).
      * rewrite (rows_of_line_absent _ _ Hk'). lia.
Qed.

(** The top-10 table of the three-row scenario: its maximum is 1. *)
Lemma top_lines_max_witness :
  top_lines 10 prepared3 [("1", 1%nat); ("14", 1%nat); ("A", 1%nat)]
  /\ prepared3 <> []
  /\ (0 < 10)%nat
  /\ exists k m,
       values_max [("1", 1%nat); ("14", 1%nat); ("A", 1%nat)] = Some m
       /\ hd_error [("1", 1%nat); ("14", 1%nat); ("A", 1%nat)] = Some (k, m)
       /\ m = rows_of_line k prepared3
       /\ (0 < m)%nat
       /\ forall k', (rows_of_line k' prepared3 <= m)%nat.
Proof.
  assert (H1 : prepared3 <> []) by discriminate.
  assert (H2 : (0 < 10)%nat) by lia.
  split; [exact top_lines_prepared3|]. split; [exact H1|]. split; [exact H2|].
  exact (proj2 (top_lines_max 10 prepared3 _ top_lines_prepared3) H1 H2).
Defined.

(** ** The options of the line multiselect *)




(** ** The order of the prepared DataFrame *)



Lemma load_as_object (df : list raw_row) (out : result (list row)) :
  load_and_prepare_data_as object df out <-> load_and_prepare_data df out.
Proof.
  split; intros H; inversion H; subst.
  - eapply load_ok; eassumption.
  - now apply load_raise.
  - eapply load_as_ok; eassumption.
  - now apply load_as_raise.
Qed.





(** ** The top-N table *)


Lemma StronglySorted_map {A B : Type} (R : B -> B -> Prop) (f : A -> B)
    (l : list A) :
  StronglySorted R (map f l) <-> StronglySorted (fun a b => R (f a) (f b)) l.
Proof.
  induction l as [|x l IH]; simpl.
  - split; constructor.
  - split; intros H; inversion H as [|? ? Hs Hx]; subst; constructor;
      try (now apply IH).
    + rewrite Forall_forall in *. intros y Hy. apply Hx. now apply in_map.
    + rewrite Forall_forall in *. intros y Hy.
      apply in_map_iff in Hy. destruct Hy as (z & <- & Hz). now apply Hx.
Qed.









(** ** The key of the legend *)

Lemma decimal_digit_model (c : ascii) (d : Z) :
  In (c, d) decimal_digits ->
  is_digit c = true
  /\ digit_value c = d
  /\ (nat_of_ascii c <? 128)%nat = true
  /\ 0 <= d.
Proof.
  intros H. simpl in H.
  repeat (destruct H as [H|H];
          [injection H as <- <-; repeat split; try reflexivity; lia|]).
  contradiction.
Qed.

Lemma model_decimal_digit (c : ascii) :
  is_digit c = true -> In (c, digit_value c) decimal_digits.
Proof.
  destruct c as [[] [] [] [] [] [] [] []]; intros H; vm_compute in H;
    try discriminate H; vm_compute; repeat (first [left; reflexivity | right]).
Qed.

Lemma int_acc_pow (a : Z) (s : string) :
  int_acc a s = a * 10 ^ Z.of_nat (String.length s) + int_acc 0 s.
Proof.
  revert a. induction s as [|c s IH]; intros a.
  - cbn [int_acc String.length]. change (Z.of_nat 0) with 0.
    rewrite Z.pow_0_r. lia.
  - change (int_acc a (String c s)) with (int_acc (10 * a + digit_value c) s).
    change (int_acc 0 (String c s)) with (int_acc (10 * 0 + digit_value c) s).
    rewrite (IH (10 * a + digit_value c)), (IH (10 * 0 + digit_value c)).
    cbn [String.length]. rewrite Nat2Z.inj_succ, Z.pow_succ_r by lia. ring.
Qed.

Lemma numeral_model (s : string) (n : Z) :
  numeral s n ->
  ascii_only s = true /\ all_digits s = true /\ s <> EmptyString
  /\ int s = n /\ 0 <= n.
Proof.
  induction 1 as [c d Hc|c d s n Hc _ IH].
  - destruct (decimal_digit_model c d Hc) as (H1 & H2 & H3 & H4).
    simpl. rewrite H1, H3. unfold int. simpl. rewrite H2.
    repeat split; try reflexivity; try discriminate; lia.
  - destruct (decimal_digit_model c d Hc) as (H1 & H2 & H3 & H4).
    destruct IH as (I1 & I2 & _ & I4 & I5).
    assert (E : int (String c s) = d * 10 ^ Z.of_nat (String.length s) + n).
    { unfold int.
      change (int_acc 0 (String c s)) with (int_acc (10 * 0 + digit_value c) s).
      rewrite int_acc_pow. fold (int s). rewrite I4, H2. ring. }
    cbn [ascii_only all_digits]. rewrite H1, H3, I1, I2, E.
    repeat split; try reflexivity; try discriminate.
    assert (0 <= 10 ^ Z.of_nat (String.length s)) by (apply Z.pow_nonneg; lia).
    nia.
Qed.

Lemma model_numeral (s : string) :
  all_digits s = true -> s <> EmptyString -> numeral s (int s).
Proof.
  induction s as [|c s IH]; intros Hd Hne; [contradiction|].
  simpl in Hd. apply andb_true_iff in Hd. destruct Hd as [Hc Hs].
  apply model_decimal_digit in Hc.
  assert (E : int (String c s)
              = digit_value c * 10 ^ Z.of_nat (String.length s) + int s).
  { unfold int.
    change (int_acc 0 (String c s)) with (int_acc (10 * 0 + digit_value c) s).
    rewrite int_acc_pow. ring. }
  rewrite E. destruct s as [|c' s'].
  - change (digit_value c * 10 ^ Z.of_nat (String.length EmptyString)
            + int EmptyString) with (digit_value c * 1 + 0).
    replace (digit_value c * 1 + 0) with (digit_value c) by ring.
    now apply numeral_digit.
  - apply numeral_more; [assumption|]. apply IH; [assumption | discriminate].
Qed.

Lemma ascii_text_model (s : string) : ascii_text s <-> ascii_only s = true.
Proof.
  unfold ascii_text. induction s as [|c s IH]; simpl.
  - split; [reflexivity | constructor].
  - rewrite andb_true_iff, <- IH, Nat.ltb_lt. split.
    + intros H. inversion H; subst. tauto.
    + intros [H1 H2]. now constructor.
Qed.

Lemma ascii_only_app (s t : string) :
  ascii_only (s ++ t)%string = ascii_only s && ascii_only t.
Proof.
  induction s as [|c s IH]; simpl; [reflexivity|].
  now rewrite IH, andb_assoc.
Qed.

Lemma ascii_only_substring (n m : nat) (s : string) :
  ascii_only s = true -> ascii_only (substring n m s) = true.
Proof.
  revert n m. induction s as [|c s IH]; intros n m H; simpl.
  - now destruct n, m.
  - simpl in H. apply andb_true_iff in H. destruct H as [Hc Hs].
    destruct n as [|n].
    + destruct m as [|m]; simpl; [reflexivity|]. now rewrite Hc, IH.
    + now apply IH.
Qed.

Lemma substring_split (n : nat) (s : string) :
  (n <= String.length s)%nat ->
  s = (substring 0 n s ++ substring n (String.length s - n) s)%string.
Proof.
  revert n. induction s as [|c s IH]; intros n Hn; simpl in *.
  - now destruct n.
  - destruct n as [|n]; simpl.
    + now rewrite substring_all.
    + f_equal. apply IH. lia.
Qed.

Lemma endswith_bis_inv (s : string) :
  endswith s "bis" = true -> s = (drop_last3 s ++ "bis")%string.
Proof.
  unfold endswith, drop_last3. intros H. apply andb_true_iff in H.
  destruct H as [Hlen Heq]. apply Nat.leb_le in Hlen.
  apply String.eqb_eq in Heq. simpl String.length in *.
  rewrite (substring_split (String.length s - 3) s) at 1 by lia.
  f_equal. rewrite <- Heq. f_equal. lia.
Qed.

Lemma isdigit_numeral (s : string) (n : Z) :
  numeral s n -> isdigit s = Some true.
Proof.
  intros H. apply numeral_model in H. destruct H as (H1 & H2 & H3 & _).
  unfold isdigit. rewrite H1. destruct s; [contradiction | now rewrite H2].
Qed.

Lemma isdigit_numeral_bis (s : string) (n : Z) :
  numeral s n -> isdigit (s ++ "bis")%string = Some false.
Proof.
  intros H. apply numeral_model in H. destruct H as (H1 & _ & H3 & _).
  unfold isdigit. rewrite ascii_only_app, H1. simpl.
  destruct s as [|c s]; [contradiction|].
  now rewrite (all_digits_bis (String c s)).
Qed.

Lemma isdigit_Some_true (s : string) :
  isdigit s = Some true -> numeral s (int s).
Proof.
  unfold isdigit. destruct (ascii_only s); [|discriminate].
  destruct s as [|c s]; [discriminate|]. intros [= H].
  apply model_numeral; [assumption | discriminate].
Qed.

Lemma add_half_exact_below (n : Z) :
  0 <= n < 2 ^ 52 -> add_half n = Some (inject_Z n + (1 # 2))%Q.
Proof.
  intros [H0 H1]. unfold add_half, to_double.
  assert (Hl : Z.log2 n + 1 - 53 <= 0).
  { destruct (Z.eq_dec n 0) as [->|Hn]; [simpl; lia|].
    assert (Z.log2 n < 52) by (apply Z.log2_lt_pow2; lia). lia. }
  apply Z.leb_le in Hl. rewrite Hl.
  apply Z.ltb_lt in H1. now rewrite H1.
Qed.

Lemma sort_key_numeral (s : string) (n : Z) :
  numeral s n -> (String.length s <= 4300)%nat ->
  sort_key s = Returns (KNum (inject_Z n)).
Proof.
  intros H Hlen. unfold sort_key. rewrite (isdigit_numeral s n H).
  unfold int_max_str_digits. apply Nat.leb_le in Hlen. rewrite Hlen.
  apply numeral_model in H. destruct H as (_ & _ & _ & -> & _). reflexivity.
Qed.

Lemma sort_key_numeral_bis (s : string) (n : Z) :
  numeral s n -> (String.length s <= 4300)%nat -> n < 2 ^ 52 ->
  sort_key (s ++ "bis")%string = Returns (KNum (inject_Z n + (1 # 2))).
Proof.
  intros H Hlen Hn. unfold sort_key.
  rewrite (isdigit_numeral_bis s n H), drop_last3_bis, (isdigit_numeral s n H).
  rewrite endswith_bis. simpl andb. cbv iota.
  unfold int_max_str_digits. apply Nat.leb_le in Hlen. rewrite Hlen.
  apply numeral_model in H. destruct H as (_ & _ & _ & -> & H0).
  rewrite add_half_exact_below by lia. reflexivity.
Qed.

Lemma sort_key_remaining (s : string) :
  ascii_text s ->
  (forall n, ~ numeral s n) ->
  (forall d n, numeral d n -> s <> (d ++ "bis")%string) ->
  sort_key s = Returns (KStr s).
Proof.
  intros Ha Hn Hb. apply ascii_text_model in Ha. unfold sort_key.
  assert (E : isdigit s = Some false).
  { destruct (isdigit s) as [[|]|] eqn:E.
    - apply isdigit_Some_true in E. now destruct (Hn _ E).
    - reflexivity.
    - unfold isdigit in E. now rewrite Ha in E. }
  rewrite E.
  destruct (isdigit (drop_last3 s)) as [[|]|] eqn:E'.
  - destruct (endswith s "bis") eqn:Ee; [|reflexivity].
    apply isdigit_Some_true in E'. apply endswith_bis_inv in Ee.
    now destruct (Hb _ _ E' Ee).
  - reflexivity.
  - unfold isdigit, drop_last3 in E'.
    now rewrite (ascii_only_substring _ _ _ Ha) in E'.
Qed.

Lemma sort_key_not_ascii (s : string) :
  ~ ascii_text s -> sort_key s = OutOfModel.
Proof.
  intros H. unfold sort_key, isdigit.
  destruct (ascii_only s) eqn:E; [|reflexivity].
  apply ascii_text_model in E. contradiction.
Qed.

(** The key is a number exactly for the numeric line ids. *)
Lemma sort_key_KNum (s : string) (k : key) :
  sort_key s = Returns k -> (numeric_id s <-> exists q, k = KNum q).
Proof.
  intros Hk. split.
  - intros (d & n & Hd & [-> | ->]); unfold sort_key in Hk.
    + rewrite (isdigit_numeral d n Hd) in Hk.
      destruct (String.length d <=? int_max_str_digits)%nat; [|discriminate].
      injection Hk as <-. now eexists.
    + rewrite (isdigit_numeral_bis d n Hd), drop_last3_bis,
        (isdigit_numeral d n Hd), endswith_bis in Hk. simpl andb in Hk.
      cbv iota in Hk.
      destruct (String.length d <=? int_max_str_digits)%nat; [|discriminate].
      destruct (add_half (int d)); [|discriminate].
      injection Hk as <-. now eexists.
  - intros [q ->]. unfold sort_key in Hk.
    destruct (isdigit s) as [[|]|] eqn:E; try discriminate.
    + exists s, (int s). split; [now apply isdigit_Some_true | now left].
    + destruct (isdigit (drop_last3 s)) as [d|] eqn:E'; [|discriminate].
      destruct (d && endswith s "bis") eqn:Eb; [|discriminate].
      apply andb_true_iff in Eb. destruct Eb as [-> Ee].
      exists (drop_last3 s), (int (drop_last3 s)).
      split; [now apply isdigit_Some_true|]. right. now apply endswith_bis_inv.
Qed.

Lemma decorate_Returns (lines : list string) (d : list (string * key)) :
  decorate lines = Returns d ->
  map fst d = lines /\ Forall (fun p => sort_key (fst p) = Returns (snd p)) d.
Proof.
  revert d. induction lines as [|l ls IH]; intros d H; simpl in H.
  - injection H as <-. split; constructor.
  - destruct (sort_key l) as [k| |] eqn:Ek; try discriminate.
    destruct (decorate ls) as [d'| |]; try discriminate.
    injection H as <-. destruct (IH d' eq_refl) as [H1 H2].
    split; [simpl; now rewrite H1 | now constructor].
Qed.

Lemma decorate_total (lines : list string) :
  (forall l, In l lines -> exists k, sort_key l = Returns k) ->
  exists d, decorate lines = Returns d.
Proof.
  induction lines as [|l ls IH]; intros H; simpl.
  - now eexists.
  - destruct (H l (or_introl eq_refl)) as [k ->].
    destruct IH as [d ->]; [intros l' Hl'; apply H; now right|]. now eexists.
Qed.

Lemma StronglySorted_Forall {A : Type} (P : A -> Prop) (R : A -> A -> Prop)
    (l : list A) :
  Forall P l -> StronglySorted R l ->
  StronglySorted (fun a b => P a /\ P b /\ R a b) l.
Proof.
  intros HP. induction 1 as [|x l Hs IH Hx]; constructor.
  - apply IH. now inversion HP.
  - inversion HP as [|? ? Hpx HPl]; subst.
    rewrite Forall_forall in *. intros y Hy. auto.
Qed.

(** [sorted(lines, key=sort_key)], when it returns, rearranges the lines so
    that no line has a key below the key of a line before it. *)
Lemma sorted_lines_Returns (lines out : list string) :
  sorted_lines lines = Returns out ->
  Permutation lines out
  /\ StronglySorted
       (fun a b =>
          forall ka kb,
            sort_key a = Returns ka -> sort_key b = Returns kb ->
            key_lt kb ka = false)
       out.
Proof.
  unfold sorted_lines. destruct (decorate lines) as [d| |] eqn:Ed; try discriminate.
  intros [= <-]. destruct (decorate_Returns _ _ Ed) as [Hfst Hkeys].
  pose proof (sorted_perm key_lt snd d) as Hperm. split.
  - rewrite <- Hfst. now apply Permutation_map.
  - apply StronglySorted_map.
    assert (Hasc : ascending key_lt snd (sorted key_lt snd d)).
    { apply sorted_ascending; [apply key_lt_asym | apply key_nlt_trans]. }
    assert (Hk : Forall (fun p => sort_key (fst p) = Returns (snd p))
                   (sorted key_lt snd d)).
    { rewrite Forall_forall in *. intros p Hp. apply Hkeys.
      now apply (Permutation_in _ (Permutation_sym Hperm)). }
    eapply StronglySorted_impl; [|apply (StronglySorted_Forall _ _ _ Hk Hasc)].
    intros a b (Ha & Hb & Hab) ka kb Ea Eb. simpl in Hab.
    rewrite Ha in Ea. rewrite Hb in Eb.
    injection Ea as <-. injection Eb as <-. exact Hab.
Qed.

Lemma sorted_lines_total (lines : list string) :
  (forall l, In l lines -> exists k, sort_key l = Returns k) ->
  exists out, sorted_lines lines = Returns out.
Proof.
  intros H. unfold sorted_lines.
  destruct (decorate_total lines H) as [d ->]. now eexists.
Qed.

Lemma sorted_lines_keys (lines out : list string) :
  sorted_lines lines = Returns out ->
  Forall (fun l => exists k, sort_key l = Returns k) out.
Proof.
  intros H. destruct (sorted_lines_Returns _ _ H) as [Hperm _].
  unfold sorted_lines in H.
  destruct (decorate lines) as [d| |] eqn:Ed; try discriminate.
  destruct (decorate_Returns _ _ Ed) as [Hfst Hkeys].
  rewrite Forall_forall in *. intros l Hl.
  apply (Permutation_in _ (Permutation_sym Hperm)) in Hl.
  rewrite <- Hfst in Hl. apply in_map_iff in Hl.
  destruct Hl as (p & <- & Hp). exists (snd p). now apply Hkeys.
Qed.

Lemma to_double_overflow (n : Z) : 2 ^ 1024 <= n -> to_double n = None.
Proof.
  intros Hn.
  assert (Hpos : 0 < n).
  { assert (0 < 2 ^ 1024) by (apply Z.pow_pos_nonneg; lia). lia. }
  assert (Hlog : 1024 <= Z.log2 n) by (apply Z.log2_le_pow2; lia).
  destruct (Z.log2_spec n Hpos) as [Hlo _].
  unfold to_double.
  set (e := Z.log2 n + 1 - 53) in *.
  assert (He : 0 < e) by (unfold e; lia).
  destruct (e <=? 0) eqn:E; [apply Z.leb_le in E; lia|].
  assert (H2e : 0 < 2 ^ e) by (apply Z.pow_pos_nonneg; lia).
  assert (Hq : 2 ^ 52 <= n / 2 ^ e).
  { apply Z.div_le_lower_bound; [lia|].
    rewrite <- Z.pow_add_r by lia.
    replace (e + 52) with (Z.log2 n) by (unfold e; lia).
    exact Hlo. }
  assert (Hm : 2 ^ 1024 <= n / 2 ^ e * 2 ^ e).
  { apply Z.le_trans with (2 ^ 52 * 2 ^ e).
    - rewrite <- Z.pow_add_r by lia. apply Z.pow_le_mono_r; unfold e; lia.
    - apply Z.mul_le_mono_nonneg_r; lia. }
  cbv zeta.
  match goal with
  | |- (if ?c then None else _) = None => assert (Hc : c = true)
  end.
  { apply Z.leb_le. destruct (_ || _); [|exact Hm]. nia. }
  now rewrite Hc.
Qed.

Lemma sort_key_numeral_bis_overflow (s : string) (n : Z) :
  numeral s n -> (String.length s <= 4300)%nat -> 2 ^ 1024 <= n ->
  sort_key (s ++ "bis")%string = OverflowError.
Proof.
  intros H Hlen Hn. unfold sort_key.
  rewrite (isdigit_numeral_bis s n H), drop_last3_bis, (isdigit_numeral s n H).
  rewrite endswith_bis. simpl andb. cbv iota.
  unfold int_max_str_digits. apply Nat.leb_le in Hlen. rewrite Hlen.
  apply numeral_model in H. destruct H as (_ & _ & _ & -> & _).
  unfold add_half. now rewrite to_double_overflow.
Qed.

Lemma sort_key_too_long (s : string) (n : Z) :
  numeral s n -> (4300 < String.length s)%nat ->
  sort_key s = OutOfModel /\ sort_key (s ++ "bis")%string = OutOfModel.
Proof.
  intros H Hlen. unfold sort_key.
  rewrite (isdigit_numeral_bis s n H), drop_last3_bis, (isdigit_numeral s n H).
  rewrite endswith_bis. simpl andb. cbv iota.
  unfold int_max_str_digits.
  assert (E : (String.length s <=? 4300)%nat = false) by (apply Nat.leb_gt; lia).
  rewrite E. split; reflexivity.
Qed.

Lemma not_numeric_id (s : string) :
  ~ numeric_id s ->
  (forall n, ~ numeral s n)
  /\ (forall d n, numeral d n -> s <> (d ++ "bis")%string).
Proof.
  intros H. split.
  - intros n Hn. apply H. exists s, n. split; [assumption | now left].
  - intros d n Hd E. apply H. exists d, n. split; [assumption | now right].
Qed.

Lemma bis_between (s t : string) (n m : Z) :
  numeral s n -> numeral t m ->
  (String.length s <= 4300)%nat -> (String.length t <= 4300)%nat ->
  n < 2 ^ 52 -> n < m ->
  exists ks kb kt,
    sort_key s = Returns ks
    /\ sort_key (s ++ "bis")%string = Returns kb
    /\ sort_key t = Returns kt
    /\ key_lt ks kb = true
    /\ key_lt kb kt = true.
Proof.
  intros Hs Ht Ls Lt Hn Hnm.
  exists (KNum (inject_Z n)), (KNum (inject_Z n + (1 # 2))), (KNum (inject_Z m)).
  split; [now apply sort_key_numeral|].
  split; [now apply sort_key_numeral_bis|].
  split; [now apply sort_key_numeral|].
  split; [apply int_lt_half; lia | now apply half_lt_int].
Qed.

Lemma numbers_before_letters (s t : string) (ks : key) :
  numeric_id s -> sort_key s = Returns ks ->
  ascii_text t -> ~ numeric_id t ->
  sort_key t = Returns (KStr t)
  /\ key_lt ks (KStr t) = true
  /\ key_lt (KStr t) ks = false.
Proof.
  intros Hs Ek Ha Hn. destruct (not_numeric_id t Hn) as [H1 H2].
  split; [now apply sort_key_remaining|].
  apply (sort_key_KNum s ks Ek) in Hs. destruct Hs as [q ->].
  split; reflexivity.
Qed.

Lemma letters_as_text (s t : string) :
  ascii_text s -> ~ numeric_id s -> ascii_text t -> ~ numeric_id t ->
  sort_key s = Returns (KStr s)
  /\ sort_key t = Returns (KStr t)
  /\ key_lt (KStr s) (KStr t) = String.ltb s t.
Proof.
  intros Has Hns Hat Hnt.
  destruct (not_numeric_id s Hns) as [H1 H2].
  destruct (not_numeric_id t Hnt) as [H3 H4].
  split; [now apply sort_key_remaining|].
  split; [now apply sort_key_remaining | reflexivity].
Qed.

(** C3, as the code has it. For line ids of ASCII characters with at most
    4300 digits: [sort_key] sends the decimal writing of N to the number N,
    and that writing followed by "bis" to N + 1/2 as long as N is below 2^52,
    where the double is exact, so that "Nbis" comes after "N" and before every
    larger number; every other line id keeps its text as key, comes after all
    numbers, and is compared as text with the other such ids.  When N is
    2^1024 or more the key of "Nbis" is not computed: OverflowError.  Ids
    with a character outside ASCII or with more than 4300 digits are left
    out of the model.  [sorted] with this key returns the lines in ascending
    order of the keys, and ["2","1","1bis","A","10"] becomes
    ["1","1bis","2","10","A"]. *)
Theorem sort_key_order :
  (forall s n,
     numeral s n -> (String.length s <= 4300)%nat ->
     sort_key s = Returns (KNum (inject_Z n)))
  /\ (forall s n,
        numeral s n -> (String.length s <= 4300)%nat -> n < 2 ^ 52 ->
        sort_key (s ++ "bis")%string = Returns (KNum (inject_Z n + (1 # 2))))
  /\ (forall a b : Z,
        (key_lt (KNum (inject_Z a)) (KNum (inject_Z b)) = true <-> a < b)
        /\ (key_lt (KNum (inject_Z a)) (KNum (inject_Z b + (1 # 2))) = true
            <-> a <= b)
        /\ (key_lt (KNum (inject_Z b + (1 # 2))) (KNum (inject_Z a)) = true
            <-> b < a)
        /\ (key_lt (KNum (inject_Z a + (1 # 2))) (KNum (inject_Z b + (1 # 2)))
            = true <-> a < b))
  /\ (forall s,
        ascii_text s ->
        (forall n, ~ numeral s n) ->
        (forall d n, numeral d n -> s <> (d ++ "bis")%string) ->
        sort_key s = Returns (KStr s))
  /\ (forall s n,
        numeral s n -> (String.length s <= 4300)%nat -> 2 ^ 1024 <= n ->
        sort_key (s ++ "bis")%string = OverflowError)
  /\ (forall s, ~ ascii_text s -> sort_key s = OutOfModel)
  /\ (forall s n,
        numeral s n -> (4300 < String.length s)%nat ->
        sort_key s = OutOfModel /\ sort_key (s ++ "bis")%string = OutOfModel)
  /\ (forall q s t,
        key_lt (KNum q) (KStr s) = true
        /\ key_lt (KStr s) (KNum q) = false
        /\ key_lt (KStr s) (KStr t) = String.ltb s t)
  /\ (forall lines out,
        sorted_lines lines = Returns out ->
        Permutation lines out
        /\ StronglySorted
             (fun a b =>
                forall ka kb,
                  sort_key a = Returns ka -> sort_key b = Returns kb ->
                  key_lt kb ka = false)
             out)
  /\ (forall lines,
        (forall l, In l lines -> exists k, sort_key l = Returns k) ->
        exists out, sorted_lines lines = Returns out)
  /\ (forall s t n m,
        numeral s n -> numeral t m ->
        (String.length s <= 4300)%nat -> (String.length t <= 4300)%nat ->
        n < 2 ^ 52 -> n < m ->
        exists ks kb kt,
          sort_key s = Returns ks
          /\ sort_key (s ++ "bis")%string = Returns kb
          /\ sort_key t = Returns kt
          /\ key_lt ks kb = true
          /\ key_lt kb kt = true)
  /\ (forall s t ks,
        numeric_id s -> sort_key s = Returns ks ->
        ascii_text t -> ~ numeric_id t ->
        sort_key t = Returns (KStr t)
        /\ key_lt ks (KStr t) = true
        /\ key_lt (KStr t) ks = false)
  /\ (forall s t,
        ascii_text s -> ~ numeric_id s -> ascii_text t -> ~ numeric_id t ->
        sort_key s = Returns (KStr s)
        /\ sort_key t = Returns (KStr t)
        /\ key_lt (KStr s) (KStr t) = String.ltb s t)
  /\ sorted_lines ["2"; "1"; "1bis"; "A"; "10"]
     = Returns ["1"; "1bis"; "2"; "10"; "A"].
Proof.
  split; [exact sort_key_numeral|].
  split; [exact sort_key_numeral_bis|].
  split.
  { intros a b. split; [apply int_lt_int|].
    split; [apply int_lt_half|]. split; [apply half_lt_int | apply half_lt_half]. }
  split; [exact sort_key_remaining|].
  split; [exact sort_key_numeral_bis_overflow|].
  split; [exact sort_key_not_ascii|].
  split; [exact sort_key_too_long|].
  split; [intros q s t; repeat split|].
  split; [exact sorted_lines_Returns|].
  split; [exact sorted_lines_total|].
  split; [exact bis_between|].
  split; [exact numbers_before_letters|].
  split; [exact letters_as_text|].
  vm_compute. reflexivity.
Qed.

(** The keys of "7", "7bis", "8" and "A". *)
Lemma sort_key_order_witness :
  numeral "7" 7
  /\ sort_key "7" = Returns (KNum (inject_Z 7))
  /\ sort_key "7bis" = Returns (KNum (inject_Z 7 + (1 # 2)))
  /\ (ascii_text "A"
      /\ (forall n, ~ numeral "A" n)
      /\ (forall d n, numeral d n -> "A" <> (d ++ "bis")%string))
  /\ sort_key "A" = Returns (KStr "A").
Proof.
  assert (H7 : numeral "7" 7).
  { apply numeral_digit. simpl. tauto. }
  assert (Hl : (String.length "7" <= 4300)%nat) by (simpl; lia).
  assert (Hb : 7 < 2 ^ 52) by reflexivity.
  assert (Ha : ascii_text "A") by (repeat constructor).
  assert (Hn : forall n, ~ numeral "A" n).
  { intros n H. apply numeral_model in H. destruct H as (_ & H & _).
    discriminate H. }
  assert (Hs : forall d n, numeral d n -> "A" <> (d ++ "bis")%string).
  { intros d n _ E. apply (f_equal String.length) in E.
    rewrite length_app_string in E. simpl in E. lia. }
  destruct sort_key_order as (K1 & K2 & _ & K4 & _).
  split; [exact H7|]. split; [exact (K1 "7" 7 H7 Hl)|].
  split; [exact (K2 "7" 7 H7 Hl Hb)|].
  split; [split; [exact Ha | split; [exact Hn | exact Hs]]|].
  exact (K4 "A" Ha Hn Hs).
Defined.

(** C3, as stated, fails: for N = 2^53 + 1 the key of "Nbis" is not N + 1/2
    but the double 2^53, which is below N, and [sorted] puts "Nbis" before
    "N". *)
Lemma bis_key_rounded :
  numeral "9007199254740993" (2 ^ 53 + 1)
  /\ sort_key "9007199254740993" = Returns (KNum (inject_Z (2 ^ 53 + 1)))
  /\ sort_key "9007199254740993bis" = Returns (KNum (inject_Z (2 ^ 53)))
  /\ sorted_lines ["9007199254740993"; "9007199254740993bis"]
     = Returns ["9007199254740993bis"; "9007199254740993"].
Proof.
  split.
  - exact (model_numeral "9007199254740993" eq_refl
             (fun E => eq_ind "9007199254740993"%string
                         (fun s => match s with
                                   | EmptyString => False
                                   | _ => True
                                   end) I _ E)).
  - split; [vm_compute; reflexivity|].
    split; vm_compute; reflexivity.
Qed.

(** ** The legend of the map *)

(** X11. The legend order of the map is computed whenever every line id of
    the filtered data gets a key; it then lists each of those lines once and
    no other, in ascending order of the keys, so whatever precedes a numeric
    line is numeric: the numbers come first, the letters last. *)
Theorem category_orders_legend (df : list row) :
  ((forall l, In l (map ligne df) -> exists k, sort_key l = Returns k) ->
   exists out, category_orders df = Returns out)
  /\ forall out,
       category_orders df = Returns out ->
       NoDup out
       /\ (forall x, In x out <-> In x (map ligne df))
       /\ List.length out = nunique (map ligne df)
       /\ StronglySorted
            (fun a b =>
               forall ka kb,
                 sort_key a = Returns ka -> sort_key b = Returns kb ->
                 key_lt kb ka = false)
            out
       /\ StronglySorted (fun a b => numeric_id b -> numeric_id a) out.
Proof.
  unfold category_orders. split.
  - intros H. apply sorted_lines_total. intros l Hl. apply H.
    now apply In_unique.
  - intros out Hout.
    destruct (sorted_lines_Returns _ _ Hout) as [Hperm Hasc].
    pose proof (sorted_lines_keys _ _ Hout) as Hkeys.
    split; [|split; [|split; [|split]]].
    + apply (Permutation_NoDup Hperm), NoDup_unique_acc.
    + intros x. rewrite <- (In_unique (map ligne df) x).
      split; apply Permutation_in.
      * now apply Permutation_sym.
      * assumption.
    + unfold nunique. symmetry. now apply Permutation_length.
    + exact Hasc.
    + eapply StronglySorted_impl;
        [|apply (StronglySorted_Forall _ _ _ Hkeys Hasc)].
      intros a b ([ka Ea] & [kb Eb] & Hab) Hb.
      apply (sort_key_KNum b kb Eb) in Hb. destruct Hb as [q ->].
      apply (sort_key_KNum a ka Ea).
      specialize (Hab ka (KNum q) Ea Eb).
      destruct ka as [q'|t]; [now eexists | discriminate Hab].
Qed.

(** The legend of the three-row scenario: 1, 14, A. *)
Lemma category_orders_legend_witness :
  (forall l, In l (map ligne prepared3) -> exists k, sort_key l = Returns k)
  /\ category_orders prepared3 = Returns ["1"; "14"; "A"]
  /\ NoDup ["1"; "14"; "A"].
Proof.
  assert (H : forall l, In l (map ligne prepared3) ->
                        exists k, sort_key l = Returns k).
  { intros l [<-|[<-|[<-|[]]]]; eexists; vm_compute; reflexivity. }
  assert (E : category_orders prepared3 = Returns ["1"; "14"; "A"])
    by (vm_compute; reflexivity).
  split; [exact H|]. split; [exact E|].
  exact (proj1 (proj2 (category_orders_legend prepared3) _ E)).
Defined.
